(** * The [i18n] template rule of eslint-plugin-template

    A shallow embedding of
    [packages/eslint-plugin-template/src/rules/i18n.ts] and the properties
    of its inspection-and-fix algorithm.

    Conventions of the embedding:
    - a JavaScript string is a [string]: one [ascii] per code unit (code
      units below 256, which covers markup names and the literals of the
      rule);
    - a JavaScript number is a binary64 value, a [spec_float] with
      [prec = 53] and [emax = 1024];
    - character offsets are integers ([Z]);
    - [context.report], [console.log] and the module-level array
      [DEFAULT_IGNORE_ATTRIBUTES] are effects on an explicit [World]. *)

From Stdlib Require Import ZArith List String Ascii Bool Lia.
From Stdlib Require Import SpecFloat DecimalString.
Import ListNotations.

Local Open Scope string_scope.
Local Open Scope Z_scope.

(** ** JavaScript strings *)

Module JsString.

(** [s.length] *)
Definition length (s : string) : Z := Z.of_nat (String.length s).

(** [s.startsWith(searchString)] *)
Definition startsWith (s searchString : string) : bool :=
  String.prefix searchString s.

(** [s.endsWith(searchString)]: the code units of [s] from
    [s.length - searchString.length] on are [searchString]. *)
Definition endsWith (s searchString : string) : bool :=
  let len := String.length s in
  let n := String.length searchString in
  (n <=? len)%nat &&
  String.eqb (String.substring (len - n) n s) searchString.

(** [s.substr(start, length)] for [start >= 0]; a negative [length]
    gives the empty string. *)
Definition substr (s : string) (start len : Z) : string :=
  if len <=? 0 then EmptyString
  else String.substring (Z.to_nat start) (Z.to_nat len) s.

(** Whether the code unit [c] occurs in [s]. *)
Fixpoint hasCodeUnit (c : ascii) (s : string) : bool :=
  match s with
  | EmptyString => false
  | String c' s' => Ascii.eqb c' c || hasCodeUnit c s'
  end.

(** [arr.includes(x)] on an array of strings. *)
Definition includes (arr : list string) (x : string) : bool :=
  existsb (String.eqb x) arr.

End JsString.

(** ** JavaScript numbers: [Number(string)] and [String(number)]

    [Number] applied to a string is StringToNumber of ECMA-262 (7.1.4.1.1):
    white space is trimmed, the empty string is [+0], a
    StrNumericLiteral is rounded to the nearest binary64 value (ties to
    even), anything else is [NaN].  [String] applied to a number is
    Number::toString with radix 10 (6.1.6.1.20): the shortest digit string
    that reads back as the same number. *)

Module JsNumber.

Definition prec : Z := 53.
Definition emax : Z := 1024.

Definition number := spec_float.

Definition eqb_number (x y : number) : bool :=
  match x, y with
  | S754_zero a, S754_zero b => Bool.eqb a b
  | S754_infinity a, S754_infinity b => Bool.eqb a b
  | S754_nan, S754_nan => true
  | S754_finite a m e, S754_finite b m' e' =>
      Bool.eqb a b && Pos.eqb m m' && Z.eqb e e'
  | _, _ => false
  end.

(** *** Rounding a decimal to binary64 *)

(** The binary64 value nearest to [d * 10^q], with sign [neg]. *)
Definition round_decimal (neg : bool) (d : Z) (q : Z) : number :=
  if d <=? 0 then S754_zero neg
  else if 0 <=? q then
    binary_normalize prec emax (if neg then - (d * 10 ^ q) else d * 10 ^ q)
                     0 neg
  else
    let '(mz, ez, lz) :=
      SFdiv_core_binary prec emax d 0 (10 ^ (- q)) 0 in
    binary_round_aux prec emax neg mz ez lz.

(** *** StringToNumber *)

(** StrWhiteSpaceChar, for code units below 256: TAB, LF, VT, FF, CR,
    SP and NBSP. *)
Definition isStrWhiteSpaceChar (c : ascii) : bool :=
  let n := nat_of_ascii c in
  ((9 <=? n) && (n <=? 13) || (n =? 32) || (n =? 160))%nat.

Fixpoint trimStart (s : string) : string :=
  match s with
  | String c s' => if isStrWhiteSpaceChar c then trimStart s' else s
  | EmptyString => EmptyString
  end.

Fixpoint rev_string (s acc : string) : string :=
  match s with
  | String c s' => rev_string s' (String c acc)
  | EmptyString => acc
  end.

Definition trim (s : string) : string :=
  rev_string (trimStart (rev_string (trimStart s) "")) "".

(** The value of a digit in radix [radix] (at most 16). *)
Definition digit_value (radix : Z) (c : ascii) : option Z :=
  let n := Z.of_nat (nat_of_ascii c) in
  let v :=
    if (48 <=? n) && (n <=? 57) then Some (n - 48)
    else if (97 <=? n) && (n <=? 102) then Some (n - 87)
    else if (65 <=? n) && (n <=? 70) then Some (n - 55)
    else None in
  match v with
  | Some d => if d <? radix then Some d else None
  | None => None
  end.

(** Reads the longest run of digits of [s]: its value continuing [acc],
    the number of digits read, and the rest of the string. *)
Fixpoint read_digits (radix : Z) (s : string) (acc : Z) (count : Z)
  : Z * Z * string :=
  match s with
  | String c s' =>
      match digit_value radix c with
      | Some d => read_digits radix s' (acc * radix + d) (count + 1)
      | None => (acc, count, s)
      end
  | EmptyString => (acc, count, s)
  end.

(** ExponentPart, optional: [e] or [E], an optional sign, digits.  The
    result is the exponent, or [None] when what is left is not an
    exponent part followed by the end of the string. *)
Definition read_exponent (s : string) : option Z :=
  match s with
  | EmptyString => Some 0
  | String c s' =>
      if Ascii.eqb c "e" || Ascii.eqb c "E" then
        let '(neg, s'') :=
          match s' with
          | String "+" t => (false, t)
          | String "-" t => (true, t)
          | _ => (false, s')
          end in
        match read_digits 10 s'' 0 0 with
        | (v, n, EmptyString) =>
            if 0 <? n then Some (if neg then - v else v) else None
        | _ => None
        end
      else None
  end.

(** StrUnsignedDecimalLiteral, with the sign already read. *)
Definition unsignedDecimal (neg : bool) (s : string) : number :=
  if String.eqb s "Infinity" then S754_infinity neg
  else
    let '(ip, ni, r) := read_digits 10 s 0 0 in
    let '(d, nf, r') :=
      match r with
      | String "." t => read_digits 10 t ip 0
      | _ => (ip, 0, r)
      end in
    if (ni + nf =? 0) then S754_nan
    else
      match read_exponent r' with
      | Some ex => round_decimal neg d (ex - nf)
      | None => S754_nan
      end.

(** NonDecimalIntegerLiteral: [0x], [0o] or [0b] and digits. *)
Definition nonDecimal (radix : Z) (s : string) : number :=
  match read_digits radix s 0 0 with
  | (v, n, EmptyString) =>
      if 0 <? n then round_decimal false v 0 else S754_nan
  | _ => S754_nan
  end.

(** [Number(s)] for a string [s]. *)
Definition Number (s : string) : number :=
  match trim s with
  | EmptyString => S754_zero false
  | String "0" (String "x" t) | String "0" (String "X" t) =>
      nonDecimal 16 t
  | String "0" (String "o" t) | String "0" (String "O" t) =>
      nonDecimal 8 t
  | String "0" (String "b" t) | String "0" (String "B" t) =>
      nonDecimal 2 t
  | String "+" t => unsignedDecimal false t
  | String "-" t => unsignedDecimal true t
  | t => unsignedDecimal false t
  end.

(** *** Number::toString, radix 10 *)

(** Decimal digits of a non-negative integer. *)
Definition digits_of (n : Z) : string :=
  NilZero.string_of_uint (N.to_uint (Z.to_N n)).

Fixpoint zeros (n : nat) : string :=
  match n with
  | O => EmptyString
  | S n' => String "0" (zeros n')
  end.

(** [10^n <= num / den], for positive [num] and [den]. *)
Definition ge_pow10 (num den n : Z) : bool :=
  if 0 <=? n then den * 10 ^ n <=? num else den <=? num * 10 ^ (- n).

(** The greatest [n' <= n] with [10^(n'-1) <= num / den]. *)
Fixpoint magnitude_from (fuel : nat) (num den n : Z) : Z :=
  match fuel with
  | O => n
  | S fuel' =>
      if ge_pow10 num den (n - 1) then n
      else magnitude_from fuel' num den (n - 1)
  end.

(** The [n] with [10^(n-1) <= num / den < 10^n].  The search starts
    from an upper estimate: with [l = log2 num - log2 den] the quotient
    is below [2^(l+1)], and [log10 2 < 0.30103]. *)
Definition magnitude (num den : Z) : Z :=
  let l := Z.log2 num - Z.log2 den in
  magnitude_from 700 num den ((l + 1) * 30103 / 100000 + 2).

(** Step 5 of Number::toString for [x = num / den > 0] lying in
    [10^(n-1) <= x < 10^n]: the least [k >= 1] and the [s] of [k] digits
    such that [s * 10^(n-k)] reads back as [x]; of two such [s] the one
    nearer to [x], and the even one on a tie.  The candidates for a given
    [k] are the two integers around [x / 10^(n-k)]; when the upper one is
    [10^k] it stands for [10^(k-1)] with [n + 1]. *)
Fixpoint shortest (fuel : nat) (x : number) (num den n k : Z)
  : Z * Z * Z :=
  let tn := if n <=? k then num * 10 ^ (k - n) else num in
  let td := if n <=? k then den else den * 10 ^ (n - k) in
  let lo := tn / td in
  let hi := lo + 1 in
  let ok s := eqb_number (round_decimal false s (n - k)) x in
  let norm s := if s =? 10 ^ k then (10 ^ (k - 1), n + 1, k) else (s, n, k) in
  match fuel with
  | O => norm lo
  | S fuel' =>
      match ok lo, ok hi with
      | true, true =>
          match 2 * tn ?= (2 * lo + 1) * td with
          | Lt => norm lo
          | Gt => norm hi
          | Eq => if Z.even lo then norm lo else norm hi
          end
      | true, false => norm lo
      | false, true => norm hi
      | false, false => shortest fuel' x num den n (k + 1)
      end
  end.

(** Steps 6 to 10: the layout of the digits [s] ([k] of them) for the
    decimal exponent [n]. *)
Definition layout (s n k : Z) : string :=
  let ds := digits_of s in
  if (k <=? n) && (n <=? 21) then
    ds ++ zeros (Z.to_nat (n - k))
  else if (0 <? n) && (n <=? 21) then
    substring 0 (Z.to_nat n) ds ++ "." ++
    substring (Z.to_nat n) (Z.to_nat (k - n)) ds
  else if (-6 <? n) && (n <=? 0) then
    "0." ++ zeros (Z.to_nat (- n)) ++ ds
  else
    let e := n - 1 in
    let es := (if e <? 0 then "-" else "+") ++ digits_of (Z.abs e) in
    if k =? 1 then ds ++ "e" ++ es
    else substring 0 1 ds ++ "." ++
         substring 1 (Z.to_nat (k - 1)) ds ++ "e" ++ es.

(** [String(x)] for a number [x]. *)
Definition ToString (x : number) : string :=
  match x with
  | S754_nan => "NaN"
  | S754_zero _ => "0"
  | S754_infinity neg => if neg then "-Infinity" else "Infinity"
  | S754_finite neg m e =>
      let num := if 0 <=? e then Zpos m * 2 ^ e else Zpos m in
      let den := if 0 <=? e then 1 else 2 ^ (- e) in
      let n := magnitude num den in
      let '(s, n', k) :=
        shortest 17 (S754_finite false m e) num den n 1 in
      (if neg then "-" else "") ++ layout s n' k
  end.

End JsNumber.

(** ** JavaScript values held by loosely typed fields *)

Inductive JsValue : Type :=
| VUndefined
| VNull
| VBoolean (b : bool)
| VNumber (x : JsNumber.number)
| VString (s : string)
| VObject.

(** ToBoolean: the truthiness tested by [&&], [!] and [if]. *)
Definition ToBoolean (v : JsValue) : bool :=
  match v with
  | VUndefined | VNull => false
  | VBoolean b => b
  | VNumber (S754_zero _) | VNumber S754_nan => false
  | VNumber _ => true
  | VString s => negb (String.eqb s "")
  | VObject => true
  end.

Definition typeof (v : JsValue) : string :=
  match v with
  | VUndefined => "undefined"
  | VNull => "object"
  | VBoolean _ => "boolean"
  | VNumber _ => "number"
  | VString _ => "string"
  | VObject => "object"
  end.

(** Truthiness of an optional boolean option and of an optional string. *)
Definition truthy_bool (b : option bool) : bool :=
  match b with
  | Some true => true
  | _ => false
  end.

Definition truthy_string (s : option string) : bool :=
  match s with
  | Some s' => negb (String.eqb s' "")
  | None => false
  end.

(** ** The template AST, as far as the rule reads it *)

(** [i18n] metadata attached by the template parser to a node or to an
    attribute; [customId] is the identifier written after [@@]. *)
Record I18nMeta : Type := { customId : option string }.

Module Attrib.
Record t : Type := {
  name : string;
  value : JsValue;
  i18n : option I18nMeta
}.
End Attrib.

Record ParseLocation : Type := { offset : Z; line : Z; col : Z }.
Record ParseSourceSpan : Type :=
  { span_start : ParseLocation; span_end : ParseLocation }.

#[local] Set Warnings "-register-all".

Module Node.
(** [type] is the node kind set by the parser ([Element], [Template],
    [Text], [BoundText], [Icu], ...); an element has a [name], a
    template a [tagName]; [children] may be missing. *)
Inductive t : Type := Build {
  type : string;
  name : option string;
  tagName : option string;
  sourceSpan : ParseSourceSpan;
  attributes : list Attrib.t;
  children : option (list t);
  i18n : option I18nMeta
}.
End Node.

(** ** Options, messages and report descriptors *)

Definition TEXT_TYPE_NAMES : list string := ["Text"; "BoundText"; "Icu"].
Definition ATTRIB_I18N : string := "i18n".

(** The array literal bound to [DEFAULT_IGNORE_ATTRIBUTES] when the module
    is loaded.  The array itself lives in the [World] below. *)
Definition builtInIgnoreAttributes : list string :=
  [ "class"; "style"; "color"; "svgIcon"; "href"; "src"; "id"; "lang";
    "charset"; "height"; "width"; "target"; "type"; "colspan"; "uiSref";
    "uiSrefActive"; "ui-view"; "xmlns"; "stroke-width"; "stroke"; "fill";
    "viewBox"; "tabindex"; "formControlName" ].

Record Options : Type := {
  checkId : option bool;
  checkText : option bool;
  checkAttributes : option bool;
  ignoreAttributes : option (list string)
}.

Definition defaultOptions : Options := {|
  checkId := Some true;
  checkText := Some true;
  checkAttributes := Some true;
  ignoreAttributes := Some [""]
|}.

Inductive MessageIds : Type :=
| i18nId
| i18nText
| i18nAttrib
| i18nIdOnAttrib
| i18nSuggestIgnore.

Definition MessageIds_eqb (a b : MessageIds) : bool :=
  match a, b with
  | i18nId, i18nId
  | i18nText, i18nText
  | i18nAttrib, i18nAttrib
  | i18nIdOnAttrib, i18nIdOnAttrib
  | i18nSuggestIgnore, i18nSuggestIgnore => true
  | _, _ => false
  end.

Definition RULE_NAME : string := "i18n".

(** [meta.messages] *)
Definition messages (m : MessageIds) : string :=
  match m with
  | i18nId =>
      "Missing custom message identifier. " ++
      "For more information visit https://angular.io/guide/i18n#use-a-custom-id-with-a-description"
  | i18nIdOnAttrib =>
      "Missing custom message identifier on attribute '{{attribName}}'. " ++
      "For more information visit https://angular.io/guide/i18n#use-a-custom-id-with-a-description"
  | i18nText =>
      "Each element containing text node should have an i18n attribute. " ++
      "See https://angular.io/guide/i18n"
  | i18nAttrib =>
      "Attribute '{{attribName}}' has no corresponding i18n attribute. " ++
      "See https://angular.io/guide/i18n#translate-attributes"
  | i18nSuggestIgnore =>
      "Add the attribute name '{{attribName}}' to the ignoreAttributes option in the eslint config."
  end.

(** Line and column coordinates of the host. *)
Record Position : Type := { pos_line : Z; pos_column : Z }.
Record SourceLocation : Type := { loc_start : Position; loc_end : Position }.

(** A text edit, [fixer.replaceTextRange(range, text)]. *)
Record Fix : Type := { range : Z * Z; text : string }.

Definition replaceTextRange (r : Z * Z) (t : string) : Fix :=
  {| range := r; text := t |}.

(** What a [fix] function gives when the host calls it: an edit or [null]. *)
Inductive FixResult : Type :=
| NoEdit
| Edit (f : Fix).

Record SuggestionDescriptor : Type := {
  suggest_messageId : MessageIds;
  suggest_data : list (string * string);
  suggest_fix : FixResult
}.

(** The argument of [context.report]; [data] and [fix] may be missing. *)
Record ReportDescriptor : Type := {
  messageId : MessageIds;
  loc : SourceLocation;
  data : option (list (string * string));
  fix_ : option FixResult;
  suggest : list SuggestionDescriptor
}.

(** ** The world: the module-level array, the reports, the console *)

Record World : Type := {
  DEFAULT_IGNORE_ATTRIBUTES : list string;
  reports : list ReportDescriptor;
  console : list Node.t
}.

(** The world once the module is loaded. *)
Definition initialWorld : World := {|
  DEFAULT_IGNORE_ATTRIBUTES := builtInIgnoreAttributes;
  reports := [];
  console := []
|}.

Definition M (A : Type) : Type := World -> A * World.

Definition ret {A : Type} (a : A) : M A := fun w => (a, w).

Definition bind {A B : Type} (c : M A) (k : A -> M B) : M B :=
  fun w => let '(a, w') := c w in k a w'.

Declare Scope js_scope.
Delimit Scope js_scope with js.
Notation "x <- c ;; k" := (bind c (fun x => k))
  (at level 61, c at next level, right associativity) : js_scope.
Notation "c ;; k" := (bind c (fun _ => k))
  (at level 61, right associativity) : js_scope.

Definition add_report (d : ReportDescriptor) (w : World) : World := {|
  DEFAULT_IGNORE_ATTRIBUTES := DEFAULT_IGNORE_ATTRIBUTES w;
  reports := reports w ++ [d];
  console := console w
|}.

Definition add_log (n : Node.t) (w : World) : World := {|
  DEFAULT_IGNORE_ATTRIBUTES := DEFAULT_IGNORE_ATTRIBUTES w;
  reports := reports w;
  console := console w ++ [n]
|}.

(** [context.report(d)] *)
Definition report (d : ReportDescriptor) : M unit :=
  fun w => (tt, add_report d w).

(** [console.log(node)] *)
Definition console_log (n : Node.t) : M unit :=
  fun w => (tt, add_log n w).

(** Reading [allIgnoredAttribs]: the constant is bound to the very array
    of [DEFAULT_IGNORE_ATTRIBUTES], so it reads the array as it is now. *)
Definition allIgnoredAttribs : M (list string) :=
  fun w => (DEFAULT_IGNORE_ATTRIBUTES w, w).

(** [allIgnoredAttribs.push(...xs)]: appends to that same array. *)
Definition allIgnoredAttribs_push (xs : list string) : M unit :=
  fun w => (tt, {| DEFAULT_IGNORE_ATTRIBUTES := DEFAULT_IGNORE_ATTRIBUTES w ++ xs;
                   reports := reports w;
                   console := console w |}).

(** [arr.forEach(f)] *)
Fixpoint forEach {A : Type} (f : A -> M unit) (arr : list A) : M unit :=
  match arr with
  | [] => ret tt
  | a :: arr' => bind (f a) (fun _ => forEach f arr')
  end.

(** The worlds the rule can be in: the module has been loaded, and since
    then names were pushed on the array, reports made and nodes logged,
    in any order.  These are the only effects of [create] and of
    [checkNode]. *)
Inductive reachable : World -> Prop :=
| reachable_initial : reachable initialWorld
| reachable_push (xs : list string) (w : World) :
    reachable w -> reachable (snd (allIgnoredAttribs_push xs w))
| reachable_report (d : ReportDescriptor) (w : World) :
    reachable w -> reachable (add_report d w)
| reachable_log (n : Node.t) (w : World) :
    reachable w -> reachable (add_log n w).

(** ** The rule *)

Local Open Scope js_scope.

(** [isSizeOrNumber(value)] *)
Definition isSizeOrNumber (value : string) : bool :=
  let temp := value in
  let temp :=
    if JsString.endsWith temp "px"
    then JsString.substr temp 0 (JsString.length temp - 2)
    else temp in
  String.eqb (JsNumber.ToString (JsNumber.Number temp)) temp.

Section Rule.

(** The services of the host and of the template parser:
    [parserServices.convertNodeSourceSpanToLoc] and
    [sourceCode.getIndexFromLoc]. *)
Variable convertNodeSourceSpanToLoc : ParseSourceSpan -> SourceLocation.
Variable getIndexFromLoc : Position -> Z.

Section Closure.

(** What [create] destructures from its options. *)
Variable options : Options.

(** The condition of the [if] on an attribute without a marker;
    [ignored] is the array read through [allIgnoredAttribs].  The
    string operations are reached for a string value only, after the
    [typeof] test. *)
Definition needsI18n (ignored : list string) (attrib : Attrib.t) : bool :=
  truthy_bool (checkAttributes options)
  && ToBoolean (Attrib.value attrib)
  && String.eqb (typeof (Attrib.value attrib)) "string"
  && match Attrib.value attrib with
     | VString value =>
         (0 <? JsString.length value)
         && negb (String.eqb value "true")
         && negb (String.eqb value "false")
         && negb (isSizeOrNumber value)
         && negb (JsString.startsWith (Attrib.name attrib) ":xml")
         && negb (JsString.includes ignored (Attrib.name attrib))
     | _ => false
     end.

(** The callback of [node.attributes.forEach] in [checkNode], for the
    [loc] and [insertIndex] of the node. *)
Definition checkAttribute (loc : SourceLocation) (insertIndex : Z)
           (attrib : Attrib.t) : M unit :=
  match Attrib.i18n attrib with
  | Some meta =>
      if truthy_bool (checkId options)
         && negb (truthy_string (customId meta))
      then
        report {| messageId := i18nIdOnAttrib;
                  loc := loc;
                  data := Some [("attribName", Attrib.name attrib)];
                  fix_ := None;
                  suggest := [] |}
      else ret tt
  | None =>
      ignored <- allIgnoredAttribs ;;
      if needsI18n ignored attrib
      then
        report {| messageId := i18nAttrib;
                  loc := loc;
                  data := Some [("attribName", Attrib.name attrib)];
                  fix_ := Some (Edit (replaceTextRange
                            (insertIndex, insertIndex)
                            (" " ++ ATTRIB_I18N ++ "-" ++ Attrib.name attrib)));
                  suggest :=
                    [ {| suggest_messageId := i18nSuggestIgnore;
                         suggest_data := [("attribName", Attrib.name attrib)];
                         suggest_fix := NoEdit |} ] |}
      else ret tt
  end.

(** [node.children.some(child => TEXT_TYPE_NAMES.includes(child.type))],
    guarded by [node.children &&]. *)
Definition hasTextChild (node : Node.t) : bool :=
  match Node.children node with
  | Some cs =>
      existsb (fun child => JsString.includes TEXT_TYPE_NAMES (Node.type child)) cs
  | None => false
  end.

(** The part of [checkNode] after the attributes: [if (node.i18n)]. *)
Definition checkElement (loc : SourceLocation) (insertIndex : Z)
           (node : Node.t) : M unit :=
  match Node.i18n node with
  | Some meta =>
      if truthy_bool (checkId options) then
        if negb (truthy_string (customId meta)) then
          report {| messageId := i18nId;
                    loc := loc;
                    data := None;
                    fix_ := None;
                    suggest := [] |}
        else ret tt
      else ret tt
  | None =>
      if truthy_bool (checkText options) then
        if hasTextChild node then
          report {| messageId := i18nText;
                    loc := loc;
                    data := None;
                    fix_ := Some (Edit (replaceTextRange
                              (insertIndex, insertIndex)
                              (" " ++ ATTRIB_I18N)));
                    suggest := [] |}
        else ret tt
      else ret tt
  end.

(** The two inspections of [checkNode], once [loc] and [insertIndex]
    are known. *)
Definition inspect (loc : SourceLocation) (insertIndex : Z)
           (node : Node.t) : M unit :=
  forEach (checkAttribute loc insertIndex) (Node.attributes node) ;;
  checkElement loc insertIndex node.

(** [checkNode(node, name)] *)
Definition checkNode (node : Node.t) (name : option string) : M unit :=
  let loc := convertNodeSourceSpanToLoc (Node.sourceSpan node) in
  let startIndex := getIndexFromLoc (loc_start loc) in
  let insertIndex := startIndex + 1 in
  insertIndex <-
    match name with
    | Some s =>
        if negb (truthy_string name)
        then console_log node ;; ret insertIndex
        else ret (insertIndex + JsString.length s)
    | None => console_log node ;; ret insertIndex
    end ;;
  inspect loc insertIndex node.

End Closure.

(** The visitor returned by [create]. *)
Record RuleListener : Type := {
  Element : Node.t -> M unit;
  Template : Node.t -> M unit
}.

(** [create(context, [options])] *)
Definition create (options : Options) : M RuleListener :=
  match ignoreAttributes options with
  | Some xs => allIgnoredAttribs_push xs
  | None => ret tt
  end ;;
  ret {| Element := fun node => checkNode options node (Node.name node);
         Template := fun node => checkNode options node (Node.tagName node) |}.

End Rule.

(** ** The words of the specification *)

(** The insertion offset as the specification words it: [startOffset + 1]
    when the name is empty, [startOffset + 1 + length(name)] otherwise. *)
Definition insertionOffset (startOffset : Z) (name : string) : Z :=
  if String.eqb name "" then startOffset + 1
  else startOffset + 1 + JsString.length name.

(** Modelled from the spec: the template parser and the application of a
    fix by the host are not part of the rule.  The specification gives a
    node an i18n-marker record "present iff the node itself carries an
    i18n marker", and has the [i18nText] fix insert [" i18n"] right after
    the tag name; the node parsed from the fixed text is the same node
    with a marker that has no custom identifier. *)
Definition applyI18nTextFix (node : Node.t) : Node.t :=
  Node.Build (Node.type node) (Node.name node) (Node.tagName node)
             (Node.sourceSpan node) (Node.attributes node)
             (Node.children node) (Some {| customId := Some "" |}).

(** ** A sample host and sample nodes

    A host for templates of one line: the parser counts lines from 0 and
    the host from 1, and the index of a position is its column. *)

Module Sample.

Definition toLoc (span : ParseSourceSpan) : SourceLocation :=
  {| loc_start := {| pos_line := line (span_start span) + 1;
                     pos_column := col (span_start span) |};
     loc_end := {| pos_line := line (span_end span) + 1;
                   pos_column := col (span_end span) |} |}.

Definition toIndex (p : Position) : Z := pos_column p.

Definition span (a b : Z) : ParseSourceSpan :=
  {| span_start := {| offset := a; line := 0; col := a |};
     span_end := {| offset := b; line := 0; col := b |} |}.

Definition text (a b : Z) : Node.t :=
  Node.Build "Text" None None (span a b) [] None None.

Definition attr (n v : string) : Attrib.t :=
  {| Attrib.name := n; Attrib.value := VString v; Attrib.i18n := None |}.

Definition bare : I18nMeta := {| customId := Some "" |}.

(** [<div title="Hello">Hi</div>] *)
Definition div_title : Node.t :=
  Node.Build "Element" (Some "div") None (span 0 28)
             [attr "title" "Hello"] (Some [text 19 21]) None.

(** [<div i18n title="Hello">Hi</div>] *)
Definition div_i18n_title : Node.t :=
  Node.Build "Element" (Some "div") None (span 0 33)
             [attr "title" "Hello"] (Some [text 24 26]) (Some bare).

(** [<div>Hi</div>] and [<div i18n>Hi</div>] *)
Definition div_text : Node.t :=
  Node.Build "Element" (Some "div") None (span 0 13) []
             (Some [text 5 7]) None.

Definition div_i18n : Node.t :=
  Node.Build "Element" (Some "div") None (span 0 17) []
             (Some [text 10 12]) (Some bare).

(** [<div i18n="@@greeting">Hi</div>] *)
Definition div_greeting : Node.t :=
  Node.Build "Element" (Some "div") None (span 0 33) []
             (Some [text 25 27]) (Some {| customId := Some "greeting" |}).

(** [<div><b>Hi</b></div>]: the text is a grandchild. *)
Definition div_nested : Node.t :=
  Node.Build "Element" (Some "div") None (span 0 21) []
             (Some [Node.Build "Element" (Some "b") None (span 5 14) []
                               (Some [text 8 10]) None])
             None.

(** A template without a tag name, holding a text. *)
Definition anonymous : Node.t :=
  Node.Build "Template" None None (span 0 12)
             [attr "title" "Hello"] (Some [text 2 4]) None.

Definition loc0 : SourceLocation := toLoc (span 0 28).

(** The first rule created after the module was loaded, and the world
    it leaves. *)
Definition firstRule (options : Options) : RuleListener * World :=
  create toLoc toIndex options initialWorld.

End Sample.

(** The number of reports of kind [m] in a list of reports. *)
Definition countId (m : MessageIds) (l : list ReportDescriptor) : nat :=
  List.length (filter (fun d => MessageIds_eqb (messageId d) m) l).

(** The worlds that can follow a world [w0]: names pushed on the array,
    reports made and nodes logged, in any order. *)
Inductive reachableFrom (w0 : World) : World -> Prop :=
| reachableFrom_here : reachableFrom w0 w0
| reachableFrom_push (xs : list string) (w : World) :
    reachableFrom w0 w -> reachableFrom w0 (snd (allIgnoredAttribs_push xs w))
| reachableFrom_report (d : ReportDescriptor) (w : World) :
    reachableFrom w0 w -> reachableFrom w0 (add_report d w)
| reachableFrom_log (n : Node.t) (w : World) :
    reachableFrom w0 w -> reachableFrom w0 (add_log n w).

(** The names an options object hands to [create]: none when
    [ignoreAttributes] is undefined. *)
Definition suppliedNames (options : Options) : list string :=
  match ignoreAttributes options with
  | Some xs => xs
  | None => []
  end.

(** The world after [create] was called for each options object of a
    list, in order. *)
Definition afterCreates
           (convertNodeSourceSpanToLoc : ParseSourceSpan -> SourceLocation)
           (getIndexFromLoc : Position -> Z)
           (all : list Options) (w : World) : World :=
  fold_left
    (fun w' options =>
       snd (create convertNodeSourceSpanToLoc getIndexFromLoc options w'))
    all w.

(** A report of the loop over the attributes of a node: one of the two
    attribute kinds, at the location [l], with the name of one of the
    attributes [attrs] as data. *)
Definition attributeReport (l : SourceLocation) (attrs : list Attrib.t)
           (d : ReportDescriptor) : Prop :=
  loc d = l
  /\ (messageId d = i18nAttrib \/ messageId d = i18nIdOnAttrib)
  /\ exists a, In a attrs /\ data d = Some [("attribName", Attrib.name a)].

(** A report of the element inspection: one of the two element kinds,
    at the location [l], without data. *)
Definition elementReport (l : SourceLocation) (d : ReportDescriptor) : Prop :=
  loc d = l
  /\ (messageId d = i18nId \/ messageId d = i18nText)
  /\ data d = None.

(** What a report of each kind carries, for the insertion index [ins]. *)
Definition payloadOf (ins : Z) (d : ReportDescriptor) : Prop :=
  match messageId d with
  | i18nId =>
      data d = None /\ fix_ d = None /\ suggest d = []
  | i18nIdOnAttrib =>
      (exists n, data d = Some [("attribName", n)])
      /\ fix_ d = None /\ suggest d = []
  | i18nText =>
      data d = None
      /\ fix_ d = Some (Edit {| range := (ins, ins); text := " i18n" |})
      /\ suggest d = []
  | i18nAttrib =>
      exists n,
        data d = Some [("attribName", n)]
        /\ fix_ d = Some (Edit {| range := (ins, ins); text := " i18n-" ++ n |})
        /\ suggest d = [ {| suggest_messageId := i18nSuggestIgnore;
                            suggest_data := [("attribName", n)];
                            suggest_fix := NoEdit |} ]
  | i18nSuggestIgnore => False
  end.

(** A report without its fix. *)
Definition withoutFix (d : ReportDescriptor)
  : MessageIds * SourceLocation * option (list (string * string))
    * list SuggestionDescriptor :=
  (messageId d, loc d, data d, suggest d).

(** Whether a message text holds the placeholder of the attribute name. *)
Definition usesAttribName (message : string) : bool :=
  match String.index 0 "{{attribName}}" message with
  | Some _ => true
  | None => false
  end.

(** The data of a report or suggestion fill the placeholder of its
    message exactly when the message has it. *)
Definition placeholderFilled (d : ReportDescriptor) : Prop :=
  (usesAttribName (messages (messageId d)) = true
   <-> exists n, data d = Some [("attribName", n)])
  /\ (usesAttribName (messages (messageId d)) = false <-> data d = None)
  /\ Forall (fun s => usesAttribName (messages (suggest_messageId s)) = true
                      /\ exists n, suggest_data s = [("attribName", n)])
            (suggest d).

(** The code units that occur in the string of a number. *)
Definition numberCodeUnit (c : ascii) : bool :=
  JsString.hasCodeUnit c "0123456789.e+-NaNInfinity".

(** * Properties *)

(** ** Strings *)

Module JsStringFacts.
Import JsString.

Lemma includes_In (arr : list string) (x : string) :
  includes arr x = true <-> In x arr.
Proof.
  unfold includes. rewrite existsb_exists. split.
  - intros [y [Hy Heq]]. apply String.eqb_eq in Heq. now subst.
  - intros Hin. exists x. split; [assumption | apply String.eqb_refl].
Qed.

Lemma includes_app (xs ys : list string) (x : string) :
  includes (xs ++ ys) x = includes xs x || includes ys x.
Proof. unfold includes. apply existsb_app. Qed.

Lemma length_append (s t : string) :
  String.length (s ++ t) = (String.length s + String.length t)%nat.
Proof. induction s as [|c s IH]; simpl; [reflexivity | now rewrite IH]. Qed.

Lemma substring_skip_append (s t : string) (n : nat) :
  substring (String.length s) n (s ++ t) = substring 0 n t.
Proof. induction s as [|c s IH]; simpl; [reflexivity | exact IH]. Qed.

Lemma substring_take_append (s t : string) :
  substring 0 (String.length s) (s ++ t) = s.
Proof.
  induction s as [|c s IH]; simpl.
  - destruct t; reflexivity.
  - now rewrite IH.
Qed.

(** A string built by appending [px] ends with [px], and [substr]
    without the last two code units gives the string back. *)
Lemma endsWith_append_px (t : string) : endsWith (t ++ "px") "px" = true.
Proof.
  unfold endsWith. rewrite length_append.
  change (String.length "px") with 2%nat.
  replace (String.length t + 2 - 2)%nat with (String.length t) by lia.
  rewrite substring_skip_append.
  apply Bool.andb_true_iff. split; [apply Nat.leb_le; lia | reflexivity].
Qed.

Lemma substr_append_px (t : string) :
  substr (t ++ "px") 0 (length (t ++ "px") - 2) = t.
Proof.
  unfold substr, length. rewrite length_append.
  change (String.length "px") with 2%nat.
  destruct (Z.leb_spec (Z.of_nat (String.length t + 2) - 2) 0) as [Hle | Hgt].
  - destruct t as [|c t]; [reflexivity | cbn [String.length] in Hle; lia].
  - replace (Z.to_nat (Z.of_nat (String.length t + 2) - 2))
      with (String.length t) by lia.
    simpl (Z.to_nat 0). apply substring_take_append.
Qed.

End JsStringFacts.

(** ** Numbers: what [String(x)] can look like *)

Module JsNumberFacts.
Import JsString JsNumber JsStringFacts.

Lemma hasCodeUnit_append (c : ascii) (s t : string) :
  hasCodeUnit c (s ++ t) = hasCodeUnit c s || hasCodeUnit c t.
Proof.
  induction s as [|c' s IH]; simpl; [reflexivity|].
  rewrite IH. apply Bool.orb_assoc.
Qed.

Lemma hasCodeUnit_substring (c : ascii) (s : string) :
  forall n m, hasCodeUnit c s = false ->
              hasCodeUnit c (substring n m s) = false.
Proof.
  induction s as [|c' s IH]; intros n m Hs.
  - destruct n, m; reflexivity.
  - simpl in Hs. apply Bool.orb_false_iff in Hs as [Hc Hs].
    destruct n as [|n]; destruct m as [|m]; simpl; auto.
    rewrite Hc. simpl. auto.
Qed.

Lemma hasCodeUnit_zeros (n : nat) : hasCodeUnit "x" (zeros n) = false.
Proof. induction n as [|n IH]; simpl; [reflexivity | exact IH]. Qed.

Lemma hasCodeUnit_string_of_uint (u : Decimal.uint) :
  hasCodeUnit "x" (NilEmpty.string_of_uint u) = false.
Proof. induction u; simpl; auto. Qed.

Lemma hasCodeUnit_digits_of (z : Z) : hasCodeUnit "x" (digits_of z) = false.
Proof.
  unfold digits_of, NilZero.string_of_uint.
  destruct (N.to_uint (Z.to_N z)) eqn:E;
    try reflexivity; apply hasCodeUnit_string_of_uint.
Qed.

Lemma hasCodeUnit_layout (s n k : Z) : hasCodeUnit "x" (layout s n k) = false.
Proof.
  unfold layout.
  repeat match goal with
         | |- context [if ?b then _ else _] => destruct b
         end;
    repeat (rewrite hasCodeUnit_append; apply Bool.orb_false_iff; split);
    try reflexivity;
    auto using hasCodeUnit_zeros, hasCodeUnit_digits_of,
               hasCodeUnit_substring.
Qed.

(** No [x] occurs in the string of a number. *)
Lemma hasCodeUnit_ToString (x : number) : hasCodeUnit "x" (ToString x) = false.
Proof.
  destruct x as [neg | neg | | neg m e]; unfold ToString.
  - reflexivity.
  - destruct neg; reflexivity.
  - reflexivity.
  - match goal with
    | |- context [shortest ?f ?x ?a ?b ?c ?d] =>
        destruct (shortest f x a b c d) as [[s n'] k]
    end.
    rewrite hasCodeUnit_append, hasCodeUnit_layout.
    destruct neg; reflexivity.
Qed.

Lemma endsWith_px_hasCodeUnit (s : string) :
  endsWith s "px" = true -> hasCodeUnit "x" s = true.
Proof.
  unfold endsWith. intros H. apply Bool.andb_true_iff in H as [_ H].
  apply String.eqb_eq in H.
  destruct (hasCodeUnit "x" s) eqn:E; [reflexivity|].
  apply (hasCodeUnit_substring "x" s (String.length s - String.length "px")
           (String.length "px")) in E.
  rewrite H in E. discriminate E.
Qed.

(** So the string of a number never ends with [px]. *)
Lemma ToString_not_px (x : number) : endsWith (ToString x) "px" = false.
Proof.
  destruct (endsWith (ToString x) "px") eqn:E; [|reflexivity].
  apply endsWith_px_hasCodeUnit in E.
  rewrite hasCodeUnit_ToString in E. discriminate E.
Qed.

End JsNumberFacts.

(** ** [isSizeOrNumber] *)

(** A string that reads back from its own number, as it stands or once a
    trailing [px] is taken off, passes [isSizeOrNumber]. *)
Lemma isSizeOrNumber_roundtrip (v t : string) :
  t = v \/ v = (t ++ "px")%string ->
  JsNumber.ToString (JsNumber.Number t) = t ->
  isSizeOrNumber v = true.
Proof.
  intros [-> | ->] Hrt; unfold isSizeOrNumber.
  - assert (Hpx : JsString.endsWith v "px" = false).
    { rewrite <- Hrt. apply JsNumberFacts.ToString_not_px. }
    rewrite Hpx, Hrt. apply String.eqb_refl.
  - rewrite JsStringFacts.endsWith_append_px, JsStringFacts.substr_append_px.
    rewrite Hrt. apply String.eqb_refl.
Qed.

(** ** Reports and the world *)

Lemma countId_app (m : MessageIds) (l l' : list ReportDescriptor) :
  countId m (l ++ l') = (countId m l + countId m l')%nat.
Proof. unfold countId. now rewrite filter_app, length_app. Qed.

Lemma countId_add_report (m : MessageIds) (d : ReportDescriptor) (w : World) :
  countId m (reports (add_report d w)) =
  (countId m (reports w) + if MessageIds_eqb (messageId d) m then 1 else 0)%nat.
Proof.
  simpl. rewrite countId_app. unfold countId at 2. simpl.
  destruct (MessageIds_eqb (messageId d) m); reflexivity.
Qed.

(** A property of the world that every call of [f] keeps is kept by
    [forEach f]. *)
Lemma forEach_preserves {A X : Type} (g : World -> X) (f : A -> M unit) :
  (forall a w, g (snd (f a w)) = g w) ->
  forall arr w, g (snd (forEach f arr w)) = g w.
Proof.
  intros Hf arr. induction arr as [|a arr IH]; intros w; simpl.
  - reflexivity.
  - unfold bind. specialize (Hf a w). destruct (f a w) as [u w1].
    simpl in Hf. now rewrite IH.
Qed.

Section RuleFacts.

Variable convertNodeSourceSpanToLoc : ParseSourceSpan -> SourceLocation.
Variable getIndexFromLoc : Position -> Z.

Local Abbreviation checkNode' :=
  (checkNode convertNodeSourceSpanToLoc getIndexFromLoc).
Local Abbreviation create' :=
  (create convertNodeSourceSpanToLoc getIndexFromLoc).

(** *** What one call of the attribute callback does *)

(** An attribute with a marker: at most the report on its identifier. *)
Lemma checkAttribute_marked options loc ins attrib meta w :
  Attrib.i18n attrib = Some meta ->
  checkAttribute options loc ins attrib w =
  if truthy_bool (checkId options) && negb (truthy_string (customId meta))
  then (tt, add_report {| messageId := i18nIdOnAttrib;
                          loc := loc;
                          data := Some [("attribName", Attrib.name attrib)];
                          fix_ := None;
                          suggest := [] |} w)
  else (tt, w).
Proof.
  intros Hm. unfold checkAttribute. rewrite Hm.
  destruct (truthy_bool (checkId options) && negb (truthy_string (customId meta)));
    reflexivity.
Qed.

Lemma checkAttribute_unmarked options loc ins attrib w :
  Attrib.i18n attrib = None ->
  checkAttribute options loc ins attrib w =
  if needsI18n options (DEFAULT_IGNORE_ATTRIBUTES w) attrib
  then (tt, add_report
              {| messageId := i18nAttrib;
                 loc := loc;
                 data := Some [("attribName", Attrib.name attrib)];
                 fix_ := Some (Edit {| range := (ins, ins);
                                       text := " i18n-" ++ Attrib.name attrib |});
                 suggest :=
                   [ {| suggest_messageId := i18nSuggestIgnore;
                        suggest_data := [("attribName", Attrib.name attrib)];
                        suggest_fix := NoEdit |} ] |} w)
  else (tt, w).
Proof.
  intros Hm. unfold checkAttribute. rewrite Hm.
  unfold bind, allIgnoredAttribs.
  destruct (needsI18n options (DEFAULT_IGNORE_ATTRIBUTES w) attrib);
    reflexivity.
Qed.

(** The callback leaves the array and the console alone. *)
Lemma checkAttribute_ignored options loc ins attrib w :
  DEFAULT_IGNORE_ATTRIBUTES (snd (checkAttribute options loc ins attrib w)) =
  DEFAULT_IGNORE_ATTRIBUTES w.
Proof.
  destruct (Attrib.i18n attrib) as [meta|] eqn:Hm.
  - rewrite (checkAttribute_marked _ _ _ _ _ _ Hm).
    destruct (_ && _); reflexivity.
  - rewrite (checkAttribute_unmarked _ _ _ _ _ Hm).
    destruct (needsI18n _ _ _); reflexivity.
Qed.

Lemma checkAttribute_console options loc ins attrib w :
  console (snd (checkAttribute options loc ins attrib w)) = console w.
Proof.
  destruct (Attrib.i18n attrib) as [meta|] eqn:Hm.
  - rewrite (checkAttribute_marked _ _ _ _ _ _ Hm).
    destruct (_ && _); reflexivity.
  - rewrite (checkAttribute_unmarked _ _ _ _ _ Hm).
    destruct (needsI18n _ _ _); reflexivity.
Qed.

Lemma checkElement_ignored options loc ins node w :
  DEFAULT_IGNORE_ATTRIBUTES (snd (checkElement options loc ins node w)) =
  DEFAULT_IGNORE_ATTRIBUTES w.
Proof.
  unfold checkElement.
  destruct (Node.i18n node) as [meta|];
    repeat match goal with
           | |- context [if ?b then _ else _] => destruct b
           end; reflexivity.
Qed.

Lemma checkElement_console options loc ins node w :
  console (snd (checkElement options loc ins node w)) = console w.
Proof.
  unfold checkElement.
  destruct (Node.i18n node) as [meta|];
    repeat match goal with
           | |- context [if ?b then _ else _] => destruct b
           end; reflexivity.
Qed.

Lemma inspect_ignored options loc ins node w :
  DEFAULT_IGNORE_ATTRIBUTES (snd (inspect options loc ins node w)) =
  DEFAULT_IGNORE_ATTRIBUTES w.
Proof.
  unfold inspect, bind.
  destruct (forEach _ _ w) as [u w1] eqn:E.
  rewrite checkElement_ignored.
  change w1 with (snd (u, w1)). rewrite <- E.
  apply (forEach_preserves DEFAULT_IGNORE_ATTRIBUTES).
  intros a w0. apply checkAttribute_ignored.
Qed.

Lemma inspect_console options loc ins node w :
  console (snd (inspect options loc ins node w)) = console w.
Proof.
  unfold inspect, bind.
  destruct (forEach _ _ w) as [u w1] eqn:E.
  rewrite checkElement_console.
  change w1 with (snd (u, w1)). rewrite <- E.
  apply (forEach_preserves console).
  intros a w0. apply checkAttribute_console.
Qed.

(** [checkNode] is [inspect] at the location of the node, after the
    node was logged when the name is falsy. *)
Lemma checkNode_inspect options node name w :
  checkNode' options node name w =
  let loc := convertNodeSourceSpanToLoc (Node.sourceSpan node) in
  let startIndex := getIndexFromLoc (loc_start loc) in
  if truthy_string name
  then inspect options loc
               (startIndex + 1 + JsString.length
                                   (match name with Some s => s | None => "" end))
               node w
  else inspect options loc (startIndex + 1) node (add_log node w).
Proof.
  unfold checkNode. destruct name as [s|]; simpl.
  - destruct (String.eqb s ""); reflexivity.
  - reflexivity.
Qed.

Lemma checkNode_ignored options node name w :
  DEFAULT_IGNORE_ATTRIBUTES (snd (checkNode' options node name w)) =
  DEFAULT_IGNORE_ATTRIBUTES w.
Proof.
  rewrite checkNode_inspect. cbv zeta.
  destruct (truthy_string name); rewrite inspect_ignored; reflexivity.
Qed.

(** *** What [create] does to the array *)

Lemma create_ignored options w :
  DEFAULT_IGNORE_ATTRIBUTES (snd (create' options w)) =
  (DEFAULT_IGNORE_ATTRIBUTES w ++
   match ignoreAttributes options with Some xs => xs | None => [] end)%list.
Proof.
  unfold create, bind.
  destruct (ignoreAttributes options) as [xs|]; simpl.
  - reflexivity.
  - now rewrite app_nil_r.
Qed.

(** The array only grows: the built-in names stay at its front. *)
Lemma reachable_builtIn w :
  reachable w ->
  exists extra,
    DEFAULT_IGNORE_ATTRIBUTES w = (builtInIgnoreAttributes ++ extra)%list.
Proof.
  induction 1 as [| xs w Hw [extra IH] | d w Hw IH | n w Hw IH].
  - exists []. reflexivity.
  - exists (extra ++ xs)%list. unfold allIgnoredAttribs_push.
    cbn [snd DEFAULT_IGNORE_ATTRIBUTES]. rewrite IH. symmetry.
    apply app_assoc.
  - exact IH.
  - exact IH.
Qed.

(** *** The rule stays in reachable worlds *)

Lemma forEach_invariant {A : Type} (P : World -> Prop) (f : A -> M unit) :
  (forall a w, P w -> P (snd (f a w))) ->
  forall arr w, P w -> P (snd (forEach f arr w)).
Proof.
  intros Hf arr. induction arr as [|a arr IH]; intros w Hw; simpl.
  - exact Hw.
  - unfold bind. specialize (Hf a w Hw). destruct (f a w) as [u w1].
    apply IH. exact Hf.
Qed.

Lemma checkAttribute_reachable options loc ins attrib w :
  reachable w -> reachable (snd (checkAttribute options loc ins attrib w)).
Proof.
  intros Hw. destruct (Attrib.i18n attrib) as [meta|] eqn:Hm.
  - rewrite (checkAttribute_marked _ _ _ _ _ _ Hm).
    destruct (_ && _); [now apply reachable_report | exact Hw].
  - rewrite (checkAttribute_unmarked _ _ _ _ _ Hm).
    destruct (needsI18n _ _ _); [now apply reachable_report | exact Hw].
Qed.

Lemma checkElement_reachable options loc ins node w :
  reachable w -> reachable (snd (checkElement options loc ins node w)).
Proof.
  intros Hw. unfold checkElement.
  destruct (Node.i18n node) as [meta|];
    repeat match goal with
           | |- context [if ?b then _ else _] => destruct b
           end;
    solve [exact Hw | now apply reachable_report].
Qed.

Lemma inspect_reachable options loc ins node w :
  reachable w -> reachable (snd (inspect options loc ins node w)).
Proof.
  intros Hw. unfold inspect, bind.
  destruct (forEach _ _ w) as [u w1] eqn:E.
  apply checkElement_reachable.
  change w1 with (snd (u, w1)). rewrite <- E.
  apply (forEach_invariant reachable); [|exact Hw].
  intros a w0. apply checkAttribute_reachable.
Qed.

Lemma checkNode_reachable options node name w :
  reachable w -> reachable (snd (checkNode' options node name w)).
Proof.
  intros Hw. rewrite checkNode_inspect. cbv zeta.
  destruct (truthy_string name); apply inspect_reachable;
    [exact Hw | now apply reachable_log].
Qed.

Lemma create_reachable options w :
  reachable w -> reachable (snd (create' options w)).
Proof.
  intros Hw. unfold create, bind.
  destruct (ignoreAttributes options) as [xs|]; simpl.
  - now apply (reachable_push xs).
  - exact Hw.
Qed.

(** Each attribute of a node is handed to the callback with the location
    and the insertion index given to [inspect], in the world left by the
    attributes before it. *)
Lemma forEach_app {A : Type} (f : A -> M unit) (pre post : list A) (w : World) :
  forEach f (pre ++ post) w = forEach f post (snd (forEach f pre w)).
Proof.
  revert w. induction pre as [|a pre IH]; intros w; simpl.
  - reflexivity.
  - unfold bind. destruct (f a w) as [u w1]. apply IH.
Qed.

Lemma inspect_visits_attribute options loc ins node pre attrib post w :
  Node.attributes node = (pre ++ attrib :: post)%list ->
  inspect options loc ins node w =
  bind (forEach (checkAttribute options loc ins) post)
       (fun _ => checkElement options loc ins node)
       (snd (checkAttribute options loc ins attrib
               (snd (forEach (checkAttribute options loc ins) pre w)))).
Proof.
  intros Hattrs. unfold inspect. rewrite Hattrs. unfold bind at 1.
  rewrite forEach_app. simpl. unfold bind at 1.
  destruct (checkAttribute options loc ins attrib _) as [u w2].
  reflexivity.
Qed.

(** After the loop over the attributes [checkNode] ends with the element
    inspection, at the location of the node and its insertion offset. *)
Lemma checkNode_ends_with_element options node name w :
  let loc := convertNodeSourceSpanToLoc (Node.sourceSpan node) in
  let ins := insertionOffset (getIndexFromLoc (loc_start loc))
                             (match name with Some s => s | None => "" end) in
  let w2 := snd (forEach (checkAttribute options loc ins) (Node.attributes node)
                         (if truthy_string name then w else add_log node w)) in
  checkNode' options node name w = checkElement options loc ins node w2.
Proof.
  intros loc ins w2.
  assert (Hin : forall i w', inspect options loc i node w' =
                  checkElement options loc i node
                    (snd (forEach (checkAttribute options loc i)
                                  (Node.attributes node) w'))).
  { intros i w'. unfold inspect, bind.
    destruct (forEach _ _ w') as [u w3]. reflexivity. }
  rewrite checkNode_inspect. cbv zeta. fold loc.
  unfold w2, ins, insertionOffset.
  destruct name as [s|]; unfold truthy_string.
  - destruct (String.eqb s ""); cbn [negb]; apply Hin.
  - apply Hin.
Qed.

(** So [checkNode] hands each attribute of the node to the callback
    with the location of the node and its insertion offset; the world
    at that point has the ignore array [checkNode] started with. *)
Lemma checkNode_visits_attribute options node name pre attrib post w :
  Node.attributes node = (pre ++ attrib :: post)%list ->
  let loc := convertNodeSourceSpanToLoc (Node.sourceSpan node) in
  let ins := insertionOffset (getIndexFromLoc (loc_start loc))
                             (match name with Some s => s | None => "" end) in
  let w1 := snd (forEach (checkAttribute options loc ins) pre
                         (if truthy_string name then w else add_log node w)) in
  checkNode' options node name w =
  bind (forEach (checkAttribute options loc ins) post)
       (fun _ => checkElement options loc ins node)
       (snd (checkAttribute options loc ins attrib w1))
  /\ DEFAULT_IGNORE_ATTRIBUTES w1 = DEFAULT_IGNORE_ATTRIBUTES w.
Proof.
  intros Hattrs loc ins w1. split.
  - rewrite checkNode_inspect. cbv zeta. fold loc.
    unfold w1, ins, insertionOffset.
    destruct name as [s|]; unfold truthy_string.
    + destruct (String.eqb s ""); cbn [negb];
        apply inspect_visits_attribute; exact Hattrs.
    + apply inspect_visits_attribute; exact Hattrs.
  - unfold w1.
    rewrite (forEach_preserves DEFAULT_IGNORE_ATTRIBUTES).
    + destruct (truthy_string name); reflexivity.
    + intros a w0. apply checkAttribute_ignored.
Qed.

End RuleFacts.

(** ** The attribute inspection *)

Section AttributeClaims.


(** When the test of the unmarked branch fails nothing is reported. *)
Lemma needsI18n_not_string options ignored attrib :
  (forall s, Attrib.value attrib <> VString s) ->
  needsI18n options ignored attrib = false.
Proof.
  intros Hns. unfold needsI18n.
  destruct (Attrib.value attrib) as [ | | b | x | s | ];
    try (exfalso; apply (Hns s); reflexivity);
    simpl; rewrite ?Bool.andb_false_r; reflexivity.
Qed.

Lemma needsI18n_string options ignored attrib v :
  Attrib.value attrib = VString v ->
  needsI18n options ignored attrib =
  truthy_bool (checkAttributes options)
  && negb (String.eqb v "")
  && ((0 <? JsString.length v)
      && negb (String.eqb v "true")
      && negb (String.eqb v "false")
      && negb (isSizeOrNumber v)
      && negb (JsString.startsWith (Attrib.name attrib) ":xml")
      && negb (JsString.includes ignored (Attrib.name attrib))).
Proof.
  intros Hv. unfold needsI18n. rewrite Hv. simpl.
  now rewrite Bool.andb_true_r.
Qed.

(** Nothing is reported as [i18nAttrib] when the test of the unmarked
    branch fails. *)
Lemma no_need_no_report options loc insertIndex attrib w :
  (Attrib.i18n attrib = None ->
   needsI18n options (DEFAULT_IGNORE_ATTRIBUTES w) attrib = false) ->
  countId i18nAttrib
          (reports (snd (checkAttribute options loc insertIndex attrib w)))
  = countId i18nAttrib (reports w).
Proof.
  intros Hno.
  destruct (Attrib.i18n attrib) as [meta|] eqn:Hm.
  - rewrite (checkAttribute_marked _ _ _ _ _ _ Hm).
    destruct (_ && _); [|reflexivity].
    cbn [snd]. rewrite countId_add_report. simpl. lia.
  - rewrite (checkAttribute_unmarked _ _ _ _ _ Hm), (Hno eq_refl).
    reflexivity.
Qed.

(** C1. An attribute whose name is in the built-in list, or whose value
    is absent, empty, ["true"], ["false"], or a string that reads back
    from its own number (as it stands, or once a trailing [px] is taken
    off), never gets the report [i18nAttrib]: whatever the options, the
    marker of the attribute and the rest of the ignore array, the number
    of [i18nAttrib] reports is the same after the callback. *)
Theorem exempt_attribute_never_reported
        (options : Options) (loc : SourceLocation) (insertIndex : Z)
        (attrib : Attrib.t) (w : World) :
  reachable w ->
  In (Attrib.name attrib) builtInIgnoreAttributes
  \/ Attrib.value attrib = VUndefined
  \/ Attrib.value attrib = VNull
  \/ Attrib.value attrib = VString ""
  \/ Attrib.value attrib = VString "true"
  \/ Attrib.value attrib = VString "false"
  \/ (exists v t, Attrib.value attrib = VString v
                  /\ (t = v \/ v = t ++ "px")
                  /\ JsNumber.ToString (JsNumber.Number t) = t) ->
  countId i18nAttrib
          (reports (snd (checkAttribute options loc insertIndex attrib w)))
  = countId i18nAttrib (reports w).
Proof.
  intros Hw Hex. apply no_need_no_report. intros _.
  destruct Hex as [Hin | [Hv | [Hv | [Hv | [Hv | [Hv | Hrt]]]]]].
  - destruct (reachable_builtIn w Hw) as [extra Heq].
    assert (Hinc : JsString.includes (DEFAULT_IGNORE_ATTRIBUTES w)
                                     (Attrib.name attrib) = true).
    { apply JsStringFacts.includes_In. rewrite Heq.
      apply in_or_app. now left. }
    destruct (Attrib.value attrib) as [ | | b | x | s | ] eqn:Hv;
      try (apply needsI18n_not_string; rewrite Hv; discriminate).
    rewrite (needsI18n_string _ _ _ _ Hv), Hinc. simpl.
    now rewrite !Bool.andb_false_r.
  - apply needsI18n_not_string. rewrite Hv. discriminate.
  - apply needsI18n_not_string. rewrite Hv. discriminate.
  - rewrite (needsI18n_string _ _ _ _ Hv). simpl.
    now rewrite Bool.andb_false_r.
  - rewrite (needsI18n_string _ _ _ _ Hv). simpl.
    now rewrite Bool.andb_false_r.
  - rewrite (needsI18n_string _ _ _ _ Hv). simpl.
    now rewrite Bool.andb_false_r.
  - destruct Hrt as [v [t [Hv [Hvt Hrt]]]].
    rewrite (needsI18n_string _ _ _ _ Hv).
    rewrite (isSizeOrNumber_roundtrip v t Hvt Hrt). simpl.
    now rewrite !Bool.andb_false_r.
Qed.

(** An attribute without a marker, with [checkAttributes] on and a value
    that is not exempt: the callback makes exactly one report. *)
Lemma checkAttribute_reports_attribute
        (options : Options) (loc : SourceLocation) (insertIndex : Z)
        (attrib : Attrib.t) (v : string) (w : World) :
  Attrib.i18n attrib = None ->
  checkAttributes options = Some true ->
  Attrib.value attrib = VString v ->
  v <> "" -> v <> "true" -> v <> "false" ->
  isSizeOrNumber v = false ->
  JsString.startsWith (Attrib.name attrib) ":xml" = false ->
  ~ In (Attrib.name attrib) (DEFAULT_IGNORE_ATTRIBUTES w) ->
  checkAttribute options loc insertIndex attrib w =
  (tt, add_report
         {| messageId := i18nAttrib;
            loc := loc;
            data := Some [("attribName", Attrib.name attrib)];
            fix_ := Some (Edit {| range := (insertIndex, insertIndex);
                                  text := " i18n-" ++ Attrib.name attrib |});
            suggest :=
              [ {| suggest_messageId := i18nSuggestIgnore;
                   suggest_data := [("attribName", Attrib.name attrib)];
                   suggest_fix := NoEdit |} ] |} w)
  /\ messages i18nSuggestIgnore =
     "Add the attribute name '{{attribName}}' to the ignoreAttributes option in the eslint config.".
Proof.
  intros Hm Hca Hv Hne Ht Hf Hsz Hxml Hign. split; [|reflexivity].
  rewrite (checkAttribute_unmarked _ _ _ _ _ Hm).
  rewrite (needsI18n_string _ _ _ _ Hv), Hca, Hsz, Hxml.
  assert (Hinc : JsString.includes (DEFAULT_IGNORE_ATTRIBUTES w)
                                   (Attrib.name attrib) = false).
  { destruct (JsString.includes _ _) eqn:E; [|reflexivity].
    apply JsStringFacts.includes_In in E. contradiction. }
  rewrite Hinc.
  assert (Hlen : (0 <? JsString.length v) = true).
  { apply Z.ltb_lt. unfold JsString.length.
    destruct v; [contradiction | simpl; lia]. }
  rewrite Hlen.
  apply String.eqb_neq in Hne, Ht, Hf. rewrite Hne, Ht, Hf.
  reflexivity.
Qed.

(** An attribute with its own marker never gets [i18nAttrib], and one
    without custom identifier gets exactly [i18nIdOnAttrib] when [checkId]
    is on. *)
Lemma checkAttribute_reports_missing_id
        (options : Options) (loc : SourceLocation) (insertIndex : Z)
        (attrib : Attrib.t) (meta : I18nMeta) (w : World) :
  Attrib.i18n attrib = Some meta ->
  countId i18nAttrib
          (reports (snd (checkAttribute options loc insertIndex attrib w)))
  = countId i18nAttrib (reports w)
  /\ (checkId options = Some true ->
      customId meta = None \/ customId meta = Some "" ->
      checkAttribute options loc insertIndex attrib w =
      (tt, add_report
             {| messageId := i18nIdOnAttrib;
                loc := loc;
                data := Some [("attribName", Attrib.name attrib)];
                fix_ := None;
                suggest := [] |} w)).
Proof.
  intros Hm. split.
  - apply no_need_no_report. rewrite Hm. discriminate.
  - intros Hid Hcid. rewrite (checkAttribute_marked _ _ _ _ _ _ Hm), Hid.
    destruct Hcid as [-> | ->]; reflexivity.
Qed.

(** C7, as the code has it.  A value that is not a string never passes
    the [typeof] test: whatever the options, the name and the ignore
    array, no [i18nAttrib] is reported for the attribute. *)
Theorem non_string_value_never_reported
        (options : Options) (loc : SourceLocation) (insertIndex : Z)
        (attrib : Attrib.t) (w : World) :
  (forall s, Attrib.value attrib <> VString s) ->
  countId i18nAttrib
          (reports (snd (checkAttribute options loc insertIndex attrib w)))
  = countId i18nAttrib (reports w).
Proof.
  intros Hns. apply no_need_no_report. intros _.
  now apply needsI18n_not_string.
Qed.

(** C10. The strings [NaN], [Infinity] and [-Infinity], with or without
    a trailing [px], pass [isSizeOrNumber], so an attribute with such a
    value never gets [i18nAttrib]. *)
Theorem non_numeral_values_exempt
        (options : Options) (loc : SourceLocation) (insertIndex : Z)
        (attrib : Attrib.t) (v : string) (w : World) :
  In v ["NaN"; "Infinity"; "-Infinity";
        "NaNpx"; "Infinitypx"; "-Infinitypx"] ->
  Attrib.value attrib = VString v ->
  isSizeOrNumber v = true
  /\ countId i18nAttrib
             (reports (snd (checkAttribute options loc insertIndex attrib w)))
     = countId i18nAttrib (reports w).
Proof.
  intros Hin Hv.
  assert (Hsz : isSizeOrNumber v = true).
  { simpl in Hin.
    destruct Hin as [<- | [<- | [<- | [<- | [<- | [<- | []]]]]]];
      vm_compute; reflexivity. }
  split; [exact Hsz|].
  apply no_need_no_report. intros _.
  rewrite (needsI18n_string _ _ _ _ Hv), Hsz. simpl.
  now rewrite !Bool.andb_false_r.
Qed.

End AttributeClaims.

(** ** The attributes of an inspected node *)

Section NodeAttributeClaims.

Variable convertNodeSourceSpanToLoc : ParseSourceSpan -> SourceLocation.
Variable getIndexFromLoc : Position -> Z.

Local Abbreviation checkNode' :=
  (checkNode convertNodeSourceSpanToLoc getIndexFromLoc).

(** C3. Let [attrib] be an attribute of the node given to [checkNode],
    without a marker, with [checkAttributes] on and a value that is not
    exempt: a string, not empty, not ["true"] or ["false"], not a size or
    number, under a name that does not start with [:xml] and is not in
    the ignore array.  When the loop reaches it, the callback makes
    exactly one report: [i18nAttrib] at the location of the node, with
    the name as data, a fix that inserts [" i18n-<name>"] in the empty
    range at the insertion offset of the node, and one suggestion
    [i18nSuggestIgnore] for that name whose fix is [null]; the text of
    that message asks to add the name to [ignoreAttributes].  [checkNode]
    goes on from the world with that report. *)
Theorem unmarked_attribute_reported
        (options : Options) (node : Node.t) (name : option string)
        (pre post : list Attrib.t) (attrib : Attrib.t) (v : string)
        (w : World) :
  Node.attributes node = (pre ++ attrib :: post)%list ->
  Attrib.i18n attrib = None ->
  checkAttributes options = Some true ->
  Attrib.value attrib = VString v ->
  v <> "" -> v <> "true" -> v <> "false" ->
  isSizeOrNumber v = false ->
  JsString.startsWith (Attrib.name attrib) ":xml" = false ->
  ~ In (Attrib.name attrib) (DEFAULT_IGNORE_ATTRIBUTES w) ->
  let loc := convertNodeSourceSpanToLoc (Node.sourceSpan node) in
  let ins := insertionOffset (getIndexFromLoc (loc_start loc))
                             (match name with Some s => s | None => "" end) in
  let w1 := snd (forEach (checkAttribute options loc ins) pre
                         (if truthy_string name then w else add_log node w)) in
  let d := {| messageId := i18nAttrib;
              loc := loc;
              data := Some [("attribName", Attrib.name attrib)];
              fix_ := Some (Edit {| range := (ins, ins);
                                    text := " i18n-" ++ Attrib.name attrib |});
              suggest :=
                [ {| suggest_messageId := i18nSuggestIgnore;
                     suggest_data := [("attribName", Attrib.name attrib)];
                     suggest_fix := NoEdit |} ] |} in
  checkAttribute options loc ins attrib w1 = (tt, add_report d w1)
  /\ checkNode' options node name w =
     bind (forEach (checkAttribute options loc ins) post)
          (fun _ => checkElement options loc ins node)
          (add_report d w1)
  /\ messages i18nSuggestIgnore =
     "Add the attribute name '{{attribName}}' to the ignoreAttributes option in the eslint config.".
Proof.
  intros Hattrs Hm Hca Hv Hne Ht Hf Hsz Hxml Hign loc ins w1 d.
  destruct (checkNode_visits_attribute
              convertNodeSourceSpanToLoc getIndexFromLoc
              options node name pre attrib post w Hattrs) as [Hrun Hsame].
  fold loc ins w1 in Hrun, Hsame.
  assert (Hcb : checkAttribute options loc ins attrib w1 = (tt, add_report d w1)).
  { apply (checkAttribute_reports_attribute options loc ins attrib v w1);
      try assumption.
    rewrite Hsame. exact Hign. }
  split; [exact Hcb | split; [|reflexivity]].
  rewrite Hrun, Hcb. reflexivity.
Qed.

(** C4. Let [attrib] be an attribute of the node given to [checkNode]
    that carries its own marker.  The callback never reports [i18nAttrib]
    for it.  When [checkId] is on and the marker has no custom identifier
    (none, or the empty one), the callback makes exactly one report:
    [i18nIdOnAttrib] at the location of the node, with the name as data
    and no fix, and [checkNode] goes on from the world with that report.
    [checkAttributes] and the other options are arbitrary: the outcome
    does not depend on them. *)
Theorem marked_attribute_missing_id
        (options : Options) (node : Node.t) (name : option string)
        (pre post : list Attrib.t) (attrib : Attrib.t) (meta : I18nMeta)
        (w : World) :
  Node.attributes node = (pre ++ attrib :: post)%list ->
  Attrib.i18n attrib = Some meta ->
  let loc := convertNodeSourceSpanToLoc (Node.sourceSpan node) in
  let ins := insertionOffset (getIndexFromLoc (loc_start loc))
                             (match name with Some s => s | None => "" end) in
  let w1 := snd (forEach (checkAttribute options loc ins) pre
                         (if truthy_string name then w else add_log node w)) in
  let d := {| messageId := i18nIdOnAttrib;
              loc := loc;
              data := Some [("attribName", Attrib.name attrib)];
              fix_ := None;
              suggest := [] |} in
  countId i18nAttrib (reports (snd (checkAttribute options loc ins attrib w1)))
  = countId i18nAttrib (reports w1)
  /\ (checkId options = Some true ->
      customId meta = None \/ customId meta = Some "" ->
      checkAttribute options loc ins attrib w1 = (tt, add_report d w1)
      /\ checkNode' options node name w =
         bind (forEach (checkAttribute options loc ins) post)
              (fun _ => checkElement options loc ins node)
              (add_report d w1)).
Proof.
  intros Hattrs Hm loc ins w1 d.
  destruct (checkNode_visits_attribute
              convertNodeSourceSpanToLoc getIndexFromLoc
              options node name pre attrib post w Hattrs) as [Hrun _].
  fold loc ins w1 in Hrun.
  destruct (checkAttribute_reports_missing_id options loc ins attrib meta w1 Hm)
    as [Hcount Hcb].
  split; [exact Hcount|].
  intros Hid Hcid. specialize (Hcb Hid Hcid).
  split; [exact Hcb|]. rewrite Hrun, Hcb. reflexivity.
Qed.

End NodeAttributeClaims.

(** ** The element inspection *)

Section ElementClaims.

Variable convertNodeSourceSpanToLoc : ParseSourceSpan -> SourceLocation.
Variable getIndexFromLoc : Position -> Z.

Local Abbreviation checkNode' :=
  (checkNode convertNodeSourceSpanToLoc getIndexFromLoc).

Lemma hasTextChild_true node cs child :
  Node.children node = Some cs ->
  In child cs ->
  In (Node.type child) TEXT_TYPE_NAMES ->
  hasTextChild node = true.
Proof.
  intros Hcs Hin Hty. unfold hasTextChild. rewrite Hcs.
  apply existsb_exists. exists child. split; [exact Hin|].
  now apply JsStringFacts.includes_In.
Qed.

Lemma hasTextChild_false node :
  (forall cs child, Node.children node = Some cs -> In child cs ->
                    ~ In (Node.type child) TEXT_TYPE_NAMES) ->
  hasTextChild node = false.
Proof.
  intros Hno. unfold hasTextChild.
  destruct (Node.children node) as [cs|] eqn:Hcs; [|reflexivity].
  destruct (existsb _ cs) eqn:E; [|reflexivity].
  apply existsb_exists in E as [child [Hin Hty]].
  apply JsStringFacts.includes_In in Hty.
  exfalso. exact (Hno cs child eq_refl Hin Hty).
Qed.

Lemma checkElement_marked options loc ins node meta w :
  Node.i18n node = Some meta ->
  checkElement options loc ins node w =
  if truthy_bool (checkId options) && negb (truthy_string (customId meta))
  then (tt, add_report {| messageId := i18nId;
                          loc := loc;
                          data := None;
                          fix_ := None;
                          suggest := [] |} w)
  else (tt, w).
Proof.
  intros Hm. unfold checkElement. rewrite Hm.
  destruct (truthy_bool (checkId options)); [|reflexivity].
  destruct (negb _); reflexivity.
Qed.

Lemma checkElement_unmarked options loc ins node w :
  Node.i18n node = None ->
  checkElement options loc ins node w =
  if truthy_bool (checkText options) && hasTextChild node
  then (tt, add_report
              {| messageId := i18nText;
                 loc := loc;
                 data := None;
                 fix_ := Some (Edit {| range := (ins, ins); text := " i18n" |});
                 suggest := [] |} w)
  else (tt, w).
Proof.
  intros Hm. unfold checkElement. rewrite Hm.
  destruct (truthy_bool (checkText options)); [|reflexivity].
  destruct (hasTextChild node); reflexivity.
Qed.

(** The element inspection, for any location and insertion index. *)
Lemma checkElement_cases
        (options : Options) (loc : SourceLocation) (insertIndex : Z)
        (node : Node.t) (w : World) :
  (forall meta, Node.i18n node = Some meta ->
     countId i18nText
             (reports (snd (checkElement options loc insertIndex node w)))
     = countId i18nText (reports w)
     /\ (checkId options = Some true ->
         customId meta = None \/ customId meta = Some "" ->
         checkElement options loc insertIndex node w =
         (tt, add_report {| messageId := i18nId;
                            loc := loc;
                            data := None;
                            fix_ := None;
                            suggest := [] |} w)))
  /\ (Node.i18n node = None ->
      countId i18nId
              (reports (snd (checkElement options loc insertIndex node w)))
      = countId i18nId (reports w)
      /\ (checkText options = Some true ->
          (exists cs child, Node.children node = Some cs /\ In child cs
                            /\ In (Node.type child) TEXT_TYPE_NAMES) ->
          checkElement options loc insertIndex node w =
          (tt, add_report
                 {| messageId := i18nText;
                    loc := loc;
                    data := None;
                    fix_ := Some (Edit {| range := (insertIndex, insertIndex);
                                          text := " i18n" |});
                    suggest := [] |} w))
      /\ ((forall cs child, Node.children node = Some cs -> In child cs ->
                            ~ In (Node.type child) TEXT_TYPE_NAMES) ->
          checkElement options loc insertIndex node w = (tt, w)))
  /\ (checkElement options loc insertIndex node w = (tt, w)
      \/ exists d, checkElement options loc insertIndex node w
                   = (tt, add_report d w)).
Proof.
  split; [|split].
  - intros meta Hm. rewrite (checkElement_marked _ _ _ _ _ _ Hm). split.
    + destruct (_ && _); [|reflexivity].
      cbn [snd]. rewrite countId_add_report. simpl. lia.
    + intros Hid Hcid. rewrite Hid.
      destruct Hcid as [-> | ->]; reflexivity.
  - intros Hm. rewrite (checkElement_unmarked _ _ _ _ _ Hm).
    split; [|split].
    + destruct (_ && _); [|reflexivity].
      cbn [snd]. rewrite countId_add_report. simpl. lia.
    + intros Hct [cs [child [Hcs [Hin Hty]]]]. rewrite Hct.
      rewrite (hasTextChild_true node cs child Hcs Hin Hty). reflexivity.
    + intros Hno. rewrite (hasTextChild_false node Hno).
      now rewrite Bool.andb_false_r.
  - destruct (Node.i18n node) as [meta|] eqn:Hm.
    + rewrite (checkElement_marked _ _ _ _ _ _ Hm).
      destruct (_ && _); [right; eexists; reflexivity | now left].
    + rewrite (checkElement_unmarked _ _ _ _ _ Hm).
      destruct (_ && _); [right; eexists; reflexivity | now left].
Qed.

(** C2. After the attributes, [checkNode] ends with the element
    inspection at the location and insertion offset of the node, which
    takes one of two branches on the marker of the node.  With a marker
    no [i18nText] is reported, and when [checkId] is on and the marker
    has no custom identifier exactly one report is made, [i18nId]
    without a fix.  Without a marker no [i18nId] is reported; when
    [checkText] is on and a direct child is a [Text], [BoundText] or
    [Icu], exactly one report is made, [i18nText] with a fix inserting
    [" i18n"] in the empty range at the insertion offset of the node;
    when no direct child is of these kinds nothing is reported, whatever
    lies deeper.  In every case at most one report is made. *)
Theorem element_inspection
        (options : Options) (node : Node.t) (name : option string)
        (w : World) :
  let loc := convertNodeSourceSpanToLoc (Node.sourceSpan node) in
  let ins := insertionOffset (getIndexFromLoc (loc_start loc))
                             (match name with Some s => s | None => "" end) in
  let w2 := snd (forEach (checkAttribute options loc ins) (Node.attributes node)
                         (if truthy_string name then w else add_log node w)) in
  checkNode' options node name w = checkElement options loc ins node w2
  /\ (forall meta, Node.i18n node = Some meta ->
       countId i18nText (reports (snd (checkElement options loc ins node w2)))
       = countId i18nText (reports w2)
       /\ (checkId options = Some true ->
           customId meta = None \/ customId meta = Some "" ->
           checkElement options loc ins node w2 =
           (tt, add_report {| messageId := i18nId;
                              loc := loc;
                              data := None;
                              fix_ := None;
                              suggest := [] |} w2)))
  /\ (Node.i18n node = None ->
      countId i18nId (reports (snd (checkElement options loc ins node w2)))
      = countId i18nId (reports w2)
      /\ (checkText options = Some true ->
          (exists cs child, Node.children node = Some cs /\ In child cs
                            /\ In (Node.type child) TEXT_TYPE_NAMES) ->
          checkElement options loc ins node w2 =
          (tt, add_report
                 {| messageId := i18nText;
                    loc := loc;
                    data := None;
                    fix_ := Some (Edit {| range := (ins, ins);
                                          text := " i18n" |});
                    suggest := [] |} w2))
      /\ ((forall cs child, Node.children node = Some cs -> In child cs ->
                            ~ In (Node.type child) TEXT_TYPE_NAMES) ->
          checkElement options loc ins node w2 = (tt, w2)))
  /\ (checkElement options loc ins node w2 = (tt, w2)
      \/ exists d, checkElement options loc ins node w2 = (tt, add_report d w2)).
Proof.
  intros loc ins w2. split.
  - apply checkNode_ends_with_element.
  - apply checkElement_cases.
Qed.

(** *** The whole of [checkNode] *)

Lemma run_unit (c : M unit) (w : World) : c w = (tt, snd (c w)).
Proof. destruct (c w) as [[] w1]. reflexivity. Qed.

(** The attribute callback never reports [i18nText], and the element
    inspection of a node with a marker does not either. *)
Lemma checkAttribute_no_i18nText options loc ins attrib w :
  countId i18nText (reports (snd (checkAttribute options loc ins attrib w)))
  = countId i18nText (reports w).
Proof.
  destruct (Attrib.i18n attrib) as [meta|] eqn:Hm.
  - rewrite (checkAttribute_marked _ _ _ _ _ _ Hm).
    destruct (_ && _); [|reflexivity].
    cbn [snd]. rewrite countId_add_report. simpl. lia.
  - rewrite (checkAttribute_unmarked _ _ _ _ _ Hm).
    destruct (needsI18n _ _ _); [|reflexivity].
    cbn [snd]. rewrite countId_add_report. simpl. lia.
Qed.

Lemma marked_node_no_i18nText options node name meta w :
  Node.i18n node = Some meta ->
  countId i18nText (reports (snd (checkNode' options node name w)))
  = countId i18nText (reports w).
Proof.
  intros Hm. rewrite checkNode_inspect. cbv zeta.
  assert (Hin : forall loc ins w0,
             countId i18nText (reports (snd (inspect options loc ins node w0)))
             = countId i18nText (reports w0)).
  { intros loc ins w0. unfold inspect, bind.
    rewrite (run_unit (forEach _ _) w0).
    rewrite (checkElement_marked _ _ _ _ _ _ Hm).
    transitivity
      (countId i18nText
         (reports (snd (forEach (checkAttribute options loc ins)
                                (Node.attributes node) w0)))).
    - destruct (_ && _); [|reflexivity].
      cbn [snd]. rewrite countId_add_report. simpl. lia.
    - apply (forEach_preserves (fun w1 => countId i18nText (reports w1))).
      intros a w1. apply checkAttribute_no_i18nText. }
  destruct (truthy_string name); rewrite Hin; reflexivity.
Qed.

(** C9. When [checkNode] reported [i18nText] for a node, the node had
    no marker and the report is the last one made, with the fix that
    inserts [" i18n"] at the insertion offset of the node; and on the
    node as it is parsed once that fix is applied, [checkNode] reports no
    [i18nText], from whatever world the check is run again. *)
Theorem i18nText_fix_idempotent
        (options : Options) (node : Node.t) (name : option string)
        (w w' : World) :
  countId i18nText (reports (snd (checkNode' options node name w)))
  = S (countId i18nText (reports w)) ->
  let loc := convertNodeSourceSpanToLoc (Node.sourceSpan node) in
  let ins := insertionOffset (getIndexFromLoc (loc_start loc))
                             (match name with Some s => s | None => "" end) in
  let w2 := snd (forEach (checkAttribute options loc ins) (Node.attributes node)
                         (if truthy_string name then w else add_log node w)) in
  Node.i18n node = None
  /\ checkNode' options node name w =
     (tt, add_report
            {| messageId := i18nText;
               loc := loc;
               data := None;
               fix_ := Some (Edit {| range := (ins, ins); text := " i18n" |});
               suggest := [] |} w2)
  /\ countId i18nText
             (reports (snd (checkNode' options (applyI18nTextFix node) name w')))
     = countId i18nText (reports w').
Proof.
  intros Hrep loc ins w2.
  assert (Hm : Node.i18n node = None).
  { destruct (Node.i18n node) as [meta|] eqn:Hm; [|reflexivity].
    rewrite (marked_node_no_i18nText _ _ _ _ _ Hm) in Hrep. lia. }
  split; [exact Hm | split].
  - pose proof (checkNode_ends_with_element
                  convertNodeSourceSpanToLoc getIndexFromLoc
                  options node name w) as Hrun.
    cbv zeta in Hrun. fold loc ins w2 in Hrun.
    rewrite Hrun in Hrep |- *.
    rewrite (checkElement_unmarked _ _ _ _ _ Hm) in Hrep |- *.
    destruct (_ && _); [reflexivity|].
    exfalso. cbn [snd] in Hrep.
    assert (Hw2 : countId i18nText (reports w2) = countId i18nText (reports w)).
    { unfold w2.
      rewrite (forEach_preserves (fun w1 => countId i18nText (reports w1))).
      - destruct (truthy_string name); reflexivity.
      - intros a w1. apply checkAttribute_no_i18nText. }
    lia.
  - apply (marked_node_no_i18nText _ _ _ {| customId := Some "" |}).
    reflexivity.
Qed.

End ElementClaims.

(** ** The ignore array and [create] *)

Section CreateClaims.

Variable convertNodeSourceSpanToLoc : ParseSourceSpan -> SourceLocation.
Variable getIndexFromLoc : Position -> Z.

Local Abbreviation create' :=
  (create convertNodeSourceSpanToLoc getIndexFromLoc).

(** C8, as the code has it.  [ignoreAttributes] defaults to the array
    holding the empty string; the first rule created with the default
    options leaves the ignore array as the built-in list followed by the
    empty string, so its members are the built-in names and the empty
    string. *)
Theorem default_ignoreAttributes :
  ignoreAttributes defaultOptions = Some [""]
  /\ DEFAULT_IGNORE_ATTRIBUTES (snd (create' defaultOptions initialWorld))
     = (builtInIgnoreAttributes ++ [""])%list
  /\ (forall x,
        In x (DEFAULT_IGNORE_ATTRIBUTES
                (snd (create' defaultOptions initialWorld)))
        <-> In x builtInIgnoreAttributes \/ x = "").
Proof.
  split; [reflexivity | split].
  - rewrite create_ignored. reflexivity.
  - intros x. rewrite create_ignored.
    cbn [ignoreAttributes defaultOptions DEFAULT_IGNORE_ATTRIBUTES initialWorld].
    rewrite in_app_iff. simpl. intuition.
Qed.

End CreateClaims.

(** ** The properties at sample inputs *)

Lemma exempt_attribute_never_reported_witness :
  let w := snd (Sample.firstRule defaultOptions) in
  let attrib := Sample.attr "title" "12.5px" in
  reachable w
  /\ JsNumber.ToString (JsNumber.Number "12.5") = "12.5"
  /\ countId i18nAttrib
             (reports (snd (checkAttribute defaultOptions Sample.loc0 4 attrib w)))
     = countId i18nAttrib (reports w).
Proof.
  assert (Hw : reachable (snd (Sample.firstRule defaultOptions))).
  { apply (reachable_push [""]). apply reachable_initial. }
  assert (Hrt : JsNumber.ToString (JsNumber.Number "12.5") = "12.5").
  { vm_compute. reflexivity. }
  split; [exact Hw | split; [exact Hrt|]].
  apply (exempt_attribute_never_reported
           defaultOptions Sample.loc0 4 (Sample.attr "title" "12.5px") _ Hw).
  do 6 right. exists "12.5px", "12.5".
  split; [reflexivity | split; [right; reflexivity | exact Hrt]].
Defined.

Lemma unmarked_attribute_reported_witness :
  checkAttribute defaultOptions (Sample.toLoc (Sample.span 0 28)) 4
                 (Sample.attr "title" "Hello") initialWorld
  = (tt, add_report
           {| messageId := i18nAttrib;
              loc := Sample.toLoc (Sample.span 0 28);
              data := Some [("attribName", "title")];
              fix_ := Some (Edit {| range := (4, 4); text := " i18n-title" |});
              suggest :=
                [ {| suggest_messageId := i18nSuggestIgnore;
                     suggest_data := [("attribName", "title")];
                     suggest_fix := NoEdit |} ] |} initialWorld).
Proof.
  apply (unmarked_attribute_reported
           Sample.toLoc Sample.toIndex defaultOptions Sample.div_title
           (Some "div") [] [] (Sample.attr "title" "Hello") "Hello"
           initialWorld).
  - reflexivity.
  - reflexivity.
  - reflexivity.
  - reflexivity.
  - discriminate.
  - discriminate.
  - discriminate.
  - vm_compute. reflexivity.
  - reflexivity.
  - simpl. intuition discriminate.
Defined.

Lemma marked_attribute_missing_id_witness :
  let attrib := {| Attrib.name := "title";
                   Attrib.value := VString "Hello";
                   Attrib.i18n := Some Sample.bare |} in
  let node := Node.Build "Element" (Some "div") None (Sample.span 0 39)
                         [attrib] (Some []) None in
  let options := {| checkId := Some true;
                    checkText := Some true;
                    checkAttributes := Some false;
                    ignoreAttributes := None |} in
  checkAttribute options (Sample.toLoc (Sample.span 0 39)) 4 attrib initialWorld
  = (tt, add_report {| messageId := i18nIdOnAttrib;
                       loc := Sample.toLoc (Sample.span 0 39);
                       data := Some [("attribName", "title")];
                       fix_ := None;
                       suggest := [] |} initialWorld).
Proof.
  intros attrib node options.
  destruct (marked_attribute_missing_id
              Sample.toLoc Sample.toIndex options node (Some "div") [] []
              attrib Sample.bare initialWorld eq_refl eq_refl)
    as [_ Hid].
  apply Hid.
  - reflexivity.
  - right. reflexivity.
Defined.

Lemma non_string_value_never_reported_witness :
  let attrib := {| Attrib.name := "title";
                   Attrib.value := VObject;
                   Attrib.i18n := None |} in
  countId i18nAttrib
          (reports (snd (checkAttribute defaultOptions Sample.loc0 4 attrib
                                        initialWorld)))
  = countId i18nAttrib (reports initialWorld).
Proof.
  intros attrib.
  apply (non_string_value_never_reported defaultOptions Sample.loc0 4 attrib
           initialWorld).
  intros s. discriminate.
Defined.

(** C7, as the specification has it, fails: with the default options the
    attribute [title] without a marker, whose value is the number 42, is
    neither under a [:xml] name nor in the ignore array, and the callback
    reports nothing for it. *)
Lemma non_string_value_counterexample :
  let attrib := {| Attrib.name := "title";
                   Attrib.value := VNumber (JsNumber.Number "42");
                   Attrib.i18n := None |} in
  checkAttributes defaultOptions = Some true
  /\ JsString.startsWith (Attrib.name attrib) ":xml" = false
  /\ ~ In (Attrib.name attrib) (DEFAULT_IGNORE_ATTRIBUTES initialWorld)
  /\ checkAttribute defaultOptions Sample.loc0 4 attrib initialWorld
     = (tt, initialWorld).
Proof.
  repeat split.
  simpl. intuition discriminate.
Qed.

Lemma non_numeral_values_exempt_witness :
  isSizeOrNumber "NaNpx" = true
  /\ countId i18nAttrib
             (reports (snd (checkAttribute defaultOptions Sample.loc0 4
                                           (Sample.attr "title" "NaNpx")
                                           initialWorld)))
     = countId i18nAttrib (reports initialWorld).
Proof.
  apply (non_numeral_values_exempt defaultOptions Sample.loc0 4
           (Sample.attr "title" "NaNpx") "NaNpx" initialWorld).
  - simpl. tauto.
  - reflexivity.
Defined.

Lemma element_inspection_witness :
  checkElement defaultOptions (Sample.toLoc (Sample.span 0 33)) 4
               Sample.div_greeting initialWorld
  = (tt, initialWorld)
  /\ checkElement defaultOptions (Sample.toLoc (Sample.span 0 21)) 4
                  Sample.div_nested initialWorld
     = (tt, initialWorld)
  /\ checkElement defaultOptions (Sample.toLoc (Sample.span 0 13)) 4
                  Sample.div_text initialWorld
     = (tt, add_report
              {| messageId := i18nText;
                 loc := Sample.toLoc (Sample.span 0 13);
                 data := None;
                 fix_ := Some (Edit {| range := (4, 4); text := " i18n" |});
                 suggest := [] |} initialWorld)
  /\ checkElement defaultOptions (Sample.toLoc (Sample.span 0 17)) 4
                  Sample.div_i18n initialWorld
     = (tt, add_report {| messageId := i18nId;
                          loc := Sample.toLoc (Sample.span 0 17);
                          data := None;
                          fix_ := None;
                          suggest := [] |} initialWorld).
Proof.
  split; [|split; [|split]].
  - destruct (element_inspection Sample.toLoc Sample.toIndex defaultOptions
                Sample.div_greeting (Some "div") initialWorld)
      as [_ [_ [_ [Hnone | [d Hone]]]]].
    + exact Hnone.
    + vm_compute in Hone. discriminate Hone.
  - destruct (element_inspection Sample.toLoc Sample.toIndex defaultOptions
                Sample.div_nested (Some "div") initialWorld)
      as [_ [_ [Hbare _]]].
    apply (Hbare eq_refl).
    intros cs child Hcs Hin. injection Hcs as <-.
    destruct Hin as [<- | []]. simpl. intuition discriminate.
  - destruct (element_inspection Sample.toLoc Sample.toIndex defaultOptions
                Sample.div_text (Some "div") initialWorld)
      as [_ [_ [Hbare _]]].
    apply (Hbare eq_refl); [reflexivity|].
    exists [Sample.text 5 7], (Sample.text 5 7).
    split; [reflexivity | split; simpl; tauto].
  - destruct (element_inspection Sample.toLoc Sample.toIndex defaultOptions
                Sample.div_i18n (Some "div") initialWorld)
      as [_ [Hmarked _]].
    apply (Hmarked Sample.bare eq_refl); [reflexivity | right; reflexivity].
Defined.

Lemma i18nText_fix_idempotent_witness :
  countId i18nText
          (reports (snd (checkNode Sample.toLoc Sample.toIndex defaultOptions
                                   Sample.div_title (Some "div") initialWorld)))
  = 1%nat
  /\ countId i18nText
             (reports (snd (checkNode Sample.toLoc Sample.toIndex defaultOptions
                                      (applyI18nTextFix Sample.div_title)
                                      (Some "div") initialWorld)))
     = 0%nat.
Proof.
  assert (H : countId i18nText
                (reports (snd (checkNode Sample.toLoc Sample.toIndex
                                         defaultOptions Sample.div_title
                                         (Some "div") initialWorld)))
              = 1%nat).
  { vm_compute. reflexivity. }
  split; [exact H|].
  destruct (i18nText_fix_idempotent Sample.toLoc Sample.toIndex defaultOptions
              Sample.div_title (Some "div") initialWorld initialWorld H)
    as [_ [_ Hagain]].
  exact Hagain.
Defined.

(** C8, as the specification has it, fails: the default is not the empty
    array, and after the first rule with the default options the ignore
    array holds the empty string, which is not a built-in name. *)
Lemma default_ignoreAttributes_counterexample :
  ignoreAttributes defaultOptions <> Some []
  /\ In "" (DEFAULT_IGNORE_ATTRIBUTES (snd (Sample.firstRule defaultOptions)))
  /\ ~ In "" builtInIgnoreAttributes.
Proof.
  split; [discriminate | split].
  - vm_compute. tauto.
  - simpl. intuition discriminate.
Qed.

(** C6. The ignore array is shared between rules.  A rule created with
    [ignoreAttributes = ["title"]] and then one with ["alt"]: the array
    of the module holds both names; the second rule does not report
    [title], which a rule with the same options created first does; and
    the first rule, which reported [alt] before the second was created,
    no longer does. *)
Theorem ignore_array_shared_between_rules :
  let options1 := {| checkId := Some true; checkText := Some true;
                     checkAttributes := Some true;
                     ignoreAttributes := Some ["title"] |} in
  let options2 := {| checkId := Some true; checkText := Some true;
                     checkAttributes := Some true;
                     ignoreAttributes := Some ["alt"] |} in
  let img := Node.Build "Element" (Some "img") None (Sample.span 0 16)
                        [Sample.attr "alt" "Logo"] (Some []) None in
  let run1 := create Sample.toLoc Sample.toIndex options1 initialWorld in
  let run2 := create Sample.toLoc Sample.toIndex options2 (snd run1) in
  let alone := create Sample.toLoc Sample.toIndex options2 initialWorld in
  DEFAULT_IGNORE_ATTRIBUTES (snd run2)
  = (builtInIgnoreAttributes ++ ["title"; "alt"])%list
  /\ DEFAULT_IGNORE_ATTRIBUTES (snd alone)
     = (builtInIgnoreAttributes ++ ["alt"])%list
  /\ countId i18nAttrib
             (reports (snd (Element (fst run2) Sample.div_title (snd run2))))
     = 0%nat
  /\ countId i18nAttrib
             (reports (snd (Element (fst alone) Sample.div_title (snd alone))))
     = 1%nat
  /\ countId i18nAttrib (reports (snd (Element (fst run1) img (snd run1))))
     = 1%nat
  /\ countId i18nAttrib (reports (snd (Element (fst run1) img (snd run2))))
     = 0%nat.
Proof.
  vm_compute. repeat split.
Qed.

(** C5. A node without a tag name is written to the console.  For the
    rule created with the default options, the [Template] handler on a
    template whose [tagName] is missing, or is the empty string, hands
    the node to [console.log]; the node is then inspected in full, with
    both insertions at [startIndex + 1].  The same template under the
    tag name [ng-template] is not written to the console and has its
    insertions at [startIndex + 1 + 11]. *)
Theorem anonymous_template_written_to_console :
  let template tagName :=
    Node.Build "Template" None tagName (Sample.span 0 12)
               [Sample.attr "title" "Hello"] (Some [Sample.text 2 4]) None in
  let '(rule, w) := Sample.firstRule defaultOptions in
  let found node at_ :=
    [ {| messageId := i18nAttrib;
         loc := Sample.toLoc (Node.sourceSpan node);
         data := Some [("attribName", "title")];
         fix_ := Some (Edit {| range := (at_, at_); text := " i18n-title" |});
         suggest := [ {| suggest_messageId := i18nSuggestIgnore;
                         suggest_data := [("attribName", "title")];
                         suggest_fix := NoEdit |} ] |};
      {| messageId := i18nText;
         loc := Sample.toLoc (Node.sourceSpan node);
         data := None;
         fix_ := Some (Edit {| range := (at_, at_); text := " i18n" |});
         suggest := [] |} ] in
  console w = []
  /\ console (snd (Template rule (template None) w)) = [template None]
  /\ reports (snd (Template rule (template None) w))
     = found (template None) 1
  /\ console (snd (Template rule (template (Some "")) w))
     = [template (Some "")]
  /\ reports (snd (Template rule (template (Some "")) w))
     = found (template (Some "")) 1
  /\ console (snd (Template rule (template (Some "ng-template")) w)) = []
  /\ reports (snd (Template rule (template (Some "ng-template")) w))
     = found (template (Some "ng-template")) 12.
Proof.
  vm_compute. repeat split.
Qed.

(** ** Runs of the rule on the sample template *)

(** With the default options [<div title="Hello">Hi</div>] gets
    [i18nAttrib] for [title] and then [i18nText]. *)
Example run_div_title :
  let '(rule, w) := Sample.firstRule defaultOptions in
  map messageId (reports (snd (Element rule Sample.div_title w)))
  = [i18nAttrib; i18nText].
Proof. vm_compute. reflexivity. Qed.

(** [<div i18n title="Hello">Hi</div>] gets [i18nAttrib] for [title] and
    [i18nId] for the marker without identifier. *)
Example run_div_i18n_title :
  let '(rule, w) := Sample.firstRule defaultOptions in
  map messageId (reports (snd (Element rule Sample.div_i18n_title w)))
  = [i18nAttrib; i18nId].
Proof. vm_compute. reflexivity. Qed.

(** [<div i18n="@@greeting">Hi</div>] gets nothing. *)
Example run_div_greeting :
  let '(rule, w) := Sample.firstRule defaultOptions in
  reports (snd (Element rule Sample.div_greeting w)) = [].
Proof. vm_compute. reflexivity. Qed.

(** With [ignoreAttributes = ["title"]] only [i18nText] is left. *)
Example run_div_title_ignored :
  let options := {| checkId := Some true; checkText := Some true;
                    checkAttributes := Some true;
                    ignoreAttributes := Some ["title"] |} in
  let '(rule, w) := Sample.firstRule options in
  map messageId (reports (snd (Element rule Sample.div_title w)))
  = [i18nText].
Proof. vm_compute. reflexivity. Qed.

(** Sizes and numbers in their canonical spelling pass
    [isSizeOrNumber]; other spellings of numbers do not. *)
Example isSizeOrNumber_samples :
  map isSizeOrNumber
      ["100"; "100px"; "1.5px"; "-5"; "0.1"; "1e+21"; "NaN"; "Infinitypx";
       "007"; "1e3"; "1.50"; " 12"; "0x10"; "-0"; "px"; ""; "12 px"; "Hello"]
  = [true; true; true; true; true; true; true; true;
     false; false; false; false; false; false; false; false; false; false].
Proof. vm_compute. reflexivity. Qed.

(** * Further properties of the rule *)

(** ** Which reports a call can add *)

Lemma checkAttribute_count_other options loc ins attrib m w :
  m <> i18nAttrib -> m <> i18nIdOnAttrib ->
  countId m (reports (snd (checkAttribute options loc ins attrib w)))
  = countId m (reports w).
Proof.
  intros H1 H2. destruct (Attrib.i18n attrib) as [meta|] eqn:Hm.
  - rewrite (checkAttribute_marked _ _ _ _ _ _ Hm).
    destruct (_ && _); [|reflexivity].
    cbn [snd]. rewrite countId_add_report.
    destruct m; try contradiction; simpl; lia.
  - rewrite (checkAttribute_unmarked _ _ _ _ _ Hm).
    destruct (needsI18n _ _ _); [|reflexivity].
    cbn [snd]. rewrite countId_add_report.
    destruct m; try contradiction; simpl; lia.
Qed.

Lemma checkElement_count_other options loc ins node m w :
  m <> i18nId -> m <> i18nText ->
  countId m (reports (snd (checkElement options loc ins node w)))
  = countId m (reports w).
Proof.
  intros H1 H2. destruct (Node.i18n node) as [meta|] eqn:Hm.
  - rewrite (checkElement_marked _ _ _ _ _ _ Hm).
    destruct (_ && _); [|reflexivity].
    cbn [snd]. rewrite countId_add_report.
    destruct m; try contradiction; simpl; lia.
  - rewrite (checkElement_unmarked _ _ _ _ _ Hm).
    destruct (_ && _); [|reflexivity].
    cbn [snd]. rewrite countId_add_report.
    destruct m; try contradiction; simpl; lia.
Qed.

(** The loop adds no report of kind [m] when the callback adds none for
    each attribute, in every world with the ignore array of the start. *)
Lemma forEach_count options loc ins m attrs :
  forall w,
    (forall a w0, In a attrs ->
                  DEFAULT_IGNORE_ATTRIBUTES w0 = DEFAULT_IGNORE_ATTRIBUTES w ->
                  countId m (reports (snd (checkAttribute options loc ins a w0)))
                  = countId m (reports w0)) ->
    countId m (reports (snd (forEach (checkAttribute options loc ins) attrs w)))
    = countId m (reports w).
Proof.
  induction attrs as [|a attrs IH]; intros w H; simpl.
  - reflexivity.
  - unfold bind. rewrite (run_unit (checkAttribute options loc ins a) w).
    rewrite IH.
    + apply H; [now left | reflexivity].
    + intros a' w0 Hin Hsame. apply H; [now right|].
      rewrite Hsame. apply checkAttribute_ignored.
Qed.

Section NodeCounts.

Variable convertNodeSourceSpanToLoc : ParseSourceSpan -> SourceLocation.
Variable getIndexFromLoc : Position -> Z.

Local Abbreviation checkNode' :=
  (checkNode convertNodeSourceSpanToLoc getIndexFromLoc).

Lemma checkNode_count options node name m w :
  (forall loc ins a w0,
      In a (Node.attributes node) ->
      DEFAULT_IGNORE_ATTRIBUTES w0 = DEFAULT_IGNORE_ATTRIBUTES w ->
      countId m (reports (snd (checkAttribute options loc ins a w0)))
      = countId m (reports w0)) ->
  (forall loc ins w0,
      countId m (reports (snd (checkElement options loc ins node w0)))
      = countId m (reports w0)) ->
  countId m (reports (snd (checkNode' options node name w)))
  = countId m (reports w).
Proof.
  intros Ha He.
  assert (Hin : forall loc ins w0,
             DEFAULT_IGNORE_ATTRIBUTES w0 = DEFAULT_IGNORE_ATTRIBUTES w ->
             countId m (reports (snd (inspect options loc ins node w0)))
             = countId m (reports w0)).
  { intros loc ins w0 Hsame. unfold inspect, bind.
    rewrite (run_unit (forEach _ _) w0). rewrite He.
    apply forEach_count. intros a w1 Hin Hw1.
    apply Ha; [exact Hin | now rewrite Hw1]. }
  rewrite checkNode_inspect. cbv zeta.
  destruct (truthy_string name); rewrite Hin; reflexivity.
Qed.

End NodeCounts.

(** ** Names that exempt an attribute *)

Lemma needsI18n_name_exempt options ignored attrib :
  JsString.startsWith (Attrib.name attrib) ":xml" = true
  \/ In (Attrib.name attrib) ignored ->
  needsI18n options ignored attrib = false.
Proof.
  intros Hname.
  destruct (Attrib.value attrib) as [ | | b | x | s | ] eqn:Hv;
    try (apply needsI18n_not_string; rewrite Hv; discriminate).
  rewrite (needsI18n_string _ _ _ _ Hv).
  destruct Hname as [Hxml | Hin].
  - rewrite Hxml. simpl. now rewrite !Bool.andb_false_r.
  - apply JsStringFacts.includes_In in Hin. rewrite Hin. simpl.
    now rewrite !Bool.andb_false_r.
Qed.

(** An attribute whose name starts with [:xml], or is in the ignore
    array as it is when the callback runs, never gets [i18nAttrib],
    whatever its value and the options. *)
Theorem namespaced_or_listed_attribute_never_reported
        (options : Options) (loc : SourceLocation) (insertIndex : Z)
        (attrib : Attrib.t) (w : World) :
  JsString.startsWith (Attrib.name attrib) ":xml" = true
  \/ In (Attrib.name attrib) (DEFAULT_IGNORE_ATTRIBUTES w) ->
  countId i18nAttrib
          (reports (snd (checkAttribute options loc insertIndex attrib w)))
  = countId i18nAttrib (reports w).
Proof.
  intros Hname. apply no_need_no_report. intros _.
  now apply needsI18n_name_exempt.
Qed.

(** The array of a later world starts with the array of the earlier
    one. *)
Lemma reachableFrom_grows w0 w :
  reachableFrom w0 w ->
  exists extra,
    DEFAULT_IGNORE_ATTRIBUTES w = (DEFAULT_IGNORE_ATTRIBUTES w0 ++ extra)%list.
Proof.
  induction 1 as [| xs w Hw [extra IH] | d w Hw IH | n w Hw IH].
  - exists []. now rewrite app_nil_r.
  - exists (extra ++ xs)%list. unfold allIgnoredAttribs_push.
    cbn [snd DEFAULT_IGNORE_ATTRIBUTES]. rewrite IH. symmetry.
    apply app_assoc.
  - exact IH.
  - exact IH.
Qed.

Section IgnoreArray.

Variable convertNodeSourceSpanToLoc : ParseSourceSpan -> SourceLocation.
Variable getIndexFromLoc : Position -> Z.

Local Abbreviation checkNode' :=
  (checkNode convertNodeSourceSpanToLoc getIndexFromLoc).
Local Abbreviation create' :=
  (create convertNodeSourceSpanToLoc getIndexFromLoc).

(** A node whose attributes are all exempt by name adds no
    [i18nAttrib]. *)
Lemma checkNode_names_exempt options node name w :
  (forall a, In a (Node.attributes node) ->
             In (Attrib.name a) (DEFAULT_IGNORE_ATTRIBUTES w)) ->
  countId i18nAttrib (reports (snd (checkNode' options node name w)))
  = countId i18nAttrib (reports w).
Proof.
  intros Hall. apply checkNode_count.
  - intros loc ins a w0 Hin Hsame.
    apply no_need_no_report. intros _.
    apply needsI18n_name_exempt. right. rewrite Hsame. now apply Hall.
  - intros loc ins w0. apply checkElement_count_other; discriminate.
Qed.

(** Once [create] was called with [ignoreAttributes], the names it was
    given are ignored from then on by the handlers of every rule of the
    module, whatever the options and the time of creation of that rule:
    a node whose attributes all bear such names gets no [i18nAttrib]. *)
Theorem supplied_names_ignored_by_every_rule
        (options other : Options) (w0 w0' w : World) (node : Node.t) :
  reachableFrom (snd (create' options w0)) w ->
  (forall a, In a (Node.attributes node) ->
             In (Attrib.name a) (suppliedNames options)) ->
  let rule := fst (create' other w0') in
  countId i18nAttrib (reports (snd (Element rule node w)))
  = countId i18nAttrib (reports w)
  /\ countId i18nAttrib (reports (snd (Template rule node w)))
     = countId i18nAttrib (reports w).
Proof.
  intros Hlater Hall rule.
  assert (Hlisted : forall a, In a (Node.attributes node) ->
                      In (Attrib.name a) (DEFAULT_IGNORE_ATTRIBUTES w)).
  { intros a Hin. destruct (reachableFrom_grows _ _ Hlater) as [extra Heq].
    rewrite Heq, create_ignored. fold (suppliedNames options).
    apply in_or_app. left. apply in_or_app. right. now apply Hall. }
  unfold rule, create, bind.
  destruct (ignoreAttributes other) as [xs|]; cbn [fst Element Template];
    split; now apply checkNode_names_exempt.
Qed.

(** Calls of [create] add up: after a series of calls the array is the
    one before, followed by the names of each call in order, duplicates
    and all; nothing is reported or logged.  An undefined
    [ignoreAttributes] adds nothing. *)
Theorem creates_accumulate (all : list Options) (w : World) :
  let w' := afterCreates convertNodeSourceSpanToLoc getIndexFromLoc all w in
  DEFAULT_IGNORE_ATTRIBUTES w'
  = (DEFAULT_IGNORE_ATTRIBUTES w ++ List.concat (map suppliedNames all))%list
  /\ reports w' = reports w
  /\ console w' = console w.
Proof.
  revert w. induction all as [|options all IH]; intros w; cbn zeta.
  - simpl. rewrite app_nil_r. auto.
  - unfold afterCreates. cbn [fold_left map List.concat].
    fold (afterCreates convertNodeSourceSpanToLoc getIndexFromLoc all
            (snd (create' options w))).
    destruct (IH (snd (create' options w))) as [Hd [Hr Hc]].
    rewrite Hd, Hr, Hc, create_ignored. fold (suppliedNames options).
    rewrite <- app_assoc. repeat split.
    + unfold create, bind.
      destruct (ignoreAttributes options); reflexivity.
    + unfold create, bind.
      destruct (ignoreAttributes options); reflexivity.
Qed.

End IgnoreArray.

(** ** The shape of the reports of one call *)

Lemma attributeReport_incl l attrs attrs' d :
  incl attrs attrs' -> attributeReport l attrs d -> attributeReport l attrs' d.
Proof.
  intros Hincl [Hl [Hk [a [Hin Hd]]]].
  split; [exact Hl | split; [exact Hk|]].
  exists a. split; [now apply Hincl | exact Hd].
Qed.

Lemma checkAttribute_shape options loc ins attrib w :
  exists out,
    reports (snd (checkAttribute options loc ins attrib w))
    = (reports w ++ out)%list
    /\ (List.length out <= 1)%nat
    /\ Forall (fun d => attributeReport loc [attrib] d /\ payloadOf ins d) out.
Proof.
  destruct (Attrib.i18n attrib) as [meta|] eqn:Hm.
  - rewrite (checkAttribute_marked _ _ _ _ _ _ Hm).
    destruct (_ && _).
    + eexists. split; [reflexivity | split; [simpl; lia|]].
      constructor; [|constructor]. split.
      * split; [reflexivity | split; [now right|]].
        exists attrib. split; [now left | reflexivity].
      * unfold payloadOf. cbn [messageId data fix_ suggest].
        split; [eexists; reflexivity | split; reflexivity].
    + exists []. split; [now rewrite app_nil_r | split; [simpl; lia | constructor]].
  - rewrite (checkAttribute_unmarked _ _ _ _ _ Hm).
    destruct (needsI18n _ _ _).
    + eexists. split; [reflexivity | split; [simpl; lia|]].
      constructor; [|constructor]. split.
      * split; [reflexivity | split; [now left|]].
        exists attrib. split; [now left | reflexivity].
      * unfold payloadOf. cbn [messageId data fix_ suggest].
        eexists. split; [reflexivity | split; reflexivity].
    + exists []. split; [now rewrite app_nil_r | split; [simpl; lia | constructor]].
Qed.

Lemma checkElement_shape options loc ins node w :
  exists out,
    reports (snd (checkElement options loc ins node w)) = (reports w ++ out)%list
    /\ (List.length out <= 1)%nat
    /\ Forall (fun d => elementReport loc d /\ payloadOf ins d) out.
Proof.
  destruct (Node.i18n node) as [meta|] eqn:Hm.
  - rewrite (checkElement_marked _ _ _ _ _ _ Hm).
    destruct (_ && _).
    + eexists. split; [reflexivity | split; [simpl; lia|]].
      constructor; [|constructor]. split.
      * split; [reflexivity | split; [now left | reflexivity]].
      * unfold payloadOf. cbn [messageId data fix_ suggest]. auto.
    + exists []. split; [now rewrite app_nil_r | split; [simpl; lia | constructor]].
  - rewrite (checkElement_unmarked _ _ _ _ _ Hm).
    destruct (_ && _).
    + eexists. split; [reflexivity | split; [simpl; lia|]].
      constructor; [|constructor]. split.
      * split; [reflexivity | split; [now right | reflexivity]].
      * unfold payloadOf. cbn [messageId data fix_ suggest]. auto.
    + exists []. split; [now rewrite app_nil_r | split; [simpl; lia | constructor]].
Qed.

Lemma forEach_shape options loc ins attrs :
  forall w, exists out,
    reports (snd (forEach (checkAttribute options loc ins) attrs w))
    = (reports w ++ out)%list
    /\ (List.length out <= List.length attrs)%nat
    /\ Forall (fun d => attributeReport loc attrs d /\ payloadOf ins d) out.
Proof.
  induction attrs as [|a attrs IH]; intros w; simpl.
  - exists []. split; [now rewrite app_nil_r | split; [simpl; lia | constructor]].
  - unfold bind. rewrite (run_unit (checkAttribute options loc ins a) w).
    destruct (checkAttribute_shape options loc ins a w) as [o1 [E1 [L1 F1]]].
    destruct (IH (snd (checkAttribute options loc ins a w))) as [o2 [E2 [L2 F2]]].
    exists (o1 ++ o2)%list. split; [|split].
    + rewrite E2, E1. now rewrite app_assoc.
    + rewrite length_app. lia.
    + apply Forall_app. split.
      * eapply Forall_impl; [|exact F1]. intros d [Hd Hp]. split; [|exact Hp].
        eapply attributeReport_incl; [|exact Hd].
        intros x [<- | []]. now left.
      * eapply Forall_impl; [|exact F2]. intros d [Hd Hp]. split; [|exact Hp].
        eapply attributeReport_incl; [|exact Hd].
        intros x Hx. now right.
Qed.

Lemma inspect_shape options loc ins node w :
  exists outA outE,
    reports (snd (inspect options loc ins node w))
    = (reports w ++ outA ++ outE)%list
    /\ (List.length outA <= List.length (Node.attributes node))%nat
    /\ (List.length outE <= 1)%nat
    /\ Forall (fun d => attributeReport loc (Node.attributes node) d
                        /\ payloadOf ins d) outA
    /\ Forall (fun d => elementReport loc d /\ payloadOf ins d) outE.
Proof.
  unfold inspect, bind. rewrite (run_unit (forEach _ _) w).
  destruct (forEach_shape options loc ins (Node.attributes node) w)
    as [oA [EA [LA FA]]].
  destruct (checkElement_shape options loc ins node
              (snd (forEach (checkAttribute options loc ins)
                            (Node.attributes node) w))) as [oE [EE [LE FE]]].
  exists oA, oE. repeat split; try assumption.
  rewrite EE, EA. now rewrite app_assoc.
Qed.

Lemma forEach_skip {A : Type} (f : A -> M unit) (arr : list A) :
  forall w, (forall a w0, In a arr -> f a w0 = (tt, w0)) ->
            forEach f arr w = (tt, w).
Proof.
  induction arr as [|a arr IH]; intros w H; simpl.
  - reflexivity.
  - unfold bind. rewrite (H a w (or_introl eq_refl)).
    apply IH. intros a' w0 Hin. apply H. now right.
Qed.

Section NodeShape.

Variable convertNodeSourceSpanToLoc : ParseSourceSpan -> SourceLocation.
Variable getIndexFromLoc : Position -> Z.

Local Abbreviation checkNode' :=
  (checkNode convertNodeSourceSpanToLoc getIndexFromLoc).

Lemma checkNode_inspect_offset options node name w :
  let loc := convertNodeSourceSpanToLoc (Node.sourceSpan node) in
  let ins := insertionOffset (getIndexFromLoc (loc_start loc))
                             (match name with Some s => s | None => "" end) in
  checkNode' options node name w =
  inspect options loc ins node
          (if truthy_string name then w else add_log node w).
Proof.
  intros loc ins. rewrite checkNode_inspect. cbv zeta. fold loc.
  unfold ins, insertionOffset.
  destruct name as [s|]; unfold truthy_string; [|reflexivity].
  destruct (String.eqb s ""); reflexivity.
Qed.

Lemma checkNode_shape options node name w :
  let loc := convertNodeSourceSpanToLoc (Node.sourceSpan node) in
  let ins := insertionOffset (getIndexFromLoc (loc_start loc))
                             (match name with Some s => s | None => "" end) in
  exists outA outE,
    reports (snd (checkNode' options node name w))
    = (reports w ++ outA ++ outE)%list
    /\ (List.length outA <= List.length (Node.attributes node))%nat
    /\ (List.length outE <= 1)%nat
    /\ Forall (fun d => attributeReport loc (Node.attributes node) d
                        /\ payloadOf ins d) outA
    /\ Forall (fun d => elementReport loc d /\ payloadOf ins d) outE.
Proof.
  intros loc ins. rewrite checkNode_inspect_offset. fold loc ins.
  destruct (truthy_string name).
  - apply inspect_shape.
  - exact (inspect_shape options loc ins node (add_log node w)).
Qed.


(** Each report of [checkNode] carries what its kind calls for: the two
    identifier kinds have no fix and no suggestion; [i18nText] has the
    insertion of [" i18n"]; [i18nAttrib] has the insertion of
    [" i18n-<name>"] for the name in its data, and one suggestion for
    that name whose fix is [null]; every insertion is at the insertion
    offset of the node.  [i18nSuggestIgnore] is never the kind of a
    report. *)
Theorem checkNode_reports_payload
        (options : Options) (node : Node.t) (name : option string)
        (w : World) :
  let loc := convertNodeSourceSpanToLoc (Node.sourceSpan node) in
  let ins := insertionOffset (getIndexFromLoc (loc_start loc))
                             (match name with Some s => s | None => "" end) in
  exists out,
    reports (snd (checkNode' options node name w)) = (reports w ++ out)%list
    /\ Forall (payloadOf ins) out.
Proof.
  intros loc ins.
  destruct (checkNode_shape options node name w)
    as [outA [outE [E [_ [_ [FA FE]]]]]].
  exists (outA ++ outE)%list. split; [exact E|].
  apply Forall_app. split.
  - eapply Forall_impl; [|exact FA]. now intros d [_ Hp].
  - eapply Forall_impl; [|exact FE]. now intros d [_ Hp].
Qed.

Lemma payloadOf_placeholderFilled ins d :
  payloadOf ins d -> placeholderFilled d.
Proof.
  unfold payloadOf, placeholderFilled.
  destruct (messageId d) eqn:Hk.
  - intros [Hd [_ Hs]]. rewrite Hd, Hs. repeat split; try discriminate;
      try (intros [n Hn]; discriminate Hn); auto.
  - intros [Hd [_ Hs]]. rewrite Hd, Hs. repeat split; try discriminate;
      try (intros [n Hn]; discriminate Hn); auto.
  - intros [n [Hd [_ Hs]]]. rewrite Hd, Hs. repeat split; try discriminate;
      try (eexists; reflexivity).
    constructor; [|constructor]. split; [reflexivity | eexists; reflexivity].
  - intros [[n Hd] [_ Hs]]. rewrite Hd, Hs. repeat split; try discriminate;
      try (eexists; reflexivity); auto.
  - intros [].
Qed.

(** The data of every report and suggestion of [checkNode] match its
    message in [messages]: the attribute name is given exactly when the
    text has the placeholder for it. *)
Theorem checkNode_fills_placeholders
        (options : Options) (node : Node.t) (name : option string)
        (w : World) :
  exists out,
    reports (snd (checkNode' options node name w)) = (reports w ++ out)%list
    /\ Forall placeholderFilled out.
Proof.
  destruct (checkNode_shape options node name w)
    as [outA [outE [E [_ [_ [FA FE]]]]]].
  exists (outA ++ outE)%list. split; [exact E|].
  apply Forall_app. split.
  - eapply Forall_impl; [|exact FA]. intros d [_ Hp].
    exact (payloadOf_placeholderFilled _ d Hp).
  - eapply Forall_impl; [|exact FE]. intros d [_ Hp].
    exact (payloadOf_placeholderFilled _ d Hp).
Qed.

(** [checkNode] leaves the ignore array as it is, and writes to the
    console exactly when the name is falsy: the node, once. *)
Theorem checkNode_frame
        (options : Options) (node : Node.t) (name : option string)
        (w : World) :
  let w' := snd (checkNode' options node name w) in
  DEFAULT_IGNORE_ATTRIBUTES w' = DEFAULT_IGNORE_ATTRIBUTES w
  /\ console w' = (console w ++ if truthy_string name then [] else [node])%list.
Proof.
  cbv zeta. split.
  - apply checkNode_ignored.
  - rewrite checkNode_inspect. cbv zeta.
    destruct (truthy_string name); rewrite inspect_console.
    + now rewrite app_nil_r.
    + reflexivity.
Qed.

End NodeShape.

(** ** The options and the markers *)

Lemma checkAttribute_withoutFix options loc i1 i2 attrib w1 w2 :
  DEFAULT_IGNORE_ATTRIBUTES w1 = DEFAULT_IGNORE_ATTRIBUTES w2 ->
  map withoutFix (reports w1) = map withoutFix (reports w2) ->
  map withoutFix (reports (snd (checkAttribute options loc i1 attrib w1)))
  = map withoutFix (reports (snd (checkAttribute options loc i2 attrib w2))).
Proof.
  intros Hd Hr. destruct (Attrib.i18n attrib) as [meta|] eqn:Hm.
  - rewrite !(checkAttribute_marked _ _ _ _ _ _ Hm).
    destruct (_ && _); cbn [snd add_report reports]; [|exact Hr].
    rewrite !map_app, Hr. reflexivity.
  - rewrite !(checkAttribute_unmarked _ _ _ _ _ Hm). rewrite Hd.
    destruct (needsI18n _ _ _); cbn [snd add_report reports]; [|exact Hr].
    rewrite !map_app, Hr. reflexivity.
Qed.

Lemma checkElement_withoutFix options loc i1 i2 node w1 w2 :
  map withoutFix (reports w1) = map withoutFix (reports w2) ->
  map withoutFix (reports (snd (checkElement options loc i1 node w1)))
  = map withoutFix (reports (snd (checkElement options loc i2 node w2))).
Proof.
  intros Hr. destruct (Node.i18n node) as [meta|] eqn:Hm.
  - rewrite !(checkElement_marked _ _ _ _ _ _ Hm).
    destruct (_ && _); cbn [snd add_report reports]; [|exact Hr].
    rewrite !map_app, Hr. reflexivity.
  - rewrite !(checkElement_unmarked _ _ _ _ _ Hm).
    destruct (_ && _); cbn [snd add_report reports]; [|exact Hr].
    rewrite !map_app, Hr. reflexivity.
Qed.

Lemma forEach_withoutFix options loc i1 i2 attrs :
  forall w1 w2,
    DEFAULT_IGNORE_ATTRIBUTES w1 = DEFAULT_IGNORE_ATTRIBUTES w2 ->
    map withoutFix (reports w1) = map withoutFix (reports w2) ->
    map withoutFix
        (reports (snd (forEach (checkAttribute options loc i1) attrs w1)))
    = map withoutFix
          (reports (snd (forEach (checkAttribute options loc i2) attrs w2))).
Proof.
  induction attrs as [|a attrs IH]; intros w1 w2 Hd Hr; simpl.
  - exact Hr.
  - unfold bind.
    rewrite (run_unit (checkAttribute options loc i1 a) w1).
    rewrite (run_unit (checkAttribute options loc i2 a) w2).
    apply IH.
    + now rewrite !checkAttribute_ignored.
    + now apply checkAttribute_withoutFix.
Qed.

Lemma inspect_withoutFix options loc i1 i2 node w1 w2 :
  DEFAULT_IGNORE_ATTRIBUTES w1 = DEFAULT_IGNORE_ATTRIBUTES w2 ->
  map withoutFix (reports w1) = map withoutFix (reports w2) ->
  map withoutFix (reports (snd (inspect options loc i1 node w1)))
  = map withoutFix (reports (snd (inspect options loc i2 node w2))).
Proof.
  intros Hd Hr. unfold inspect, bind.
  rewrite (run_unit (forEach (checkAttribute options loc i1) _) w1).
  rewrite (run_unit (forEach (checkAttribute options loc i2) _) w2).
  apply checkElement_withoutFix. now apply forEach_withoutFix.
Qed.

Section OptionsAndMarkers.

Variable convertNodeSourceSpanToLoc : ParseSourceSpan -> SourceLocation.
Variable getIndexFromLoc : Position -> Z.

Local Abbreviation checkNode' :=
  (checkNode convertNodeSourceSpanToLoc getIndexFromLoc).

(** The name given to [checkNode] only moves the insertions: the kinds,
    locations, data and suggestions of the reports are the same for any
    two names, in the same order. *)
Theorem name_only_moves_the_fix
        (options : Options) (node : Node.t) (name1 name2 : option string)
        (w : World) :
  map withoutFix (reports (snd (checkNode' options node name1 w)))
  = map withoutFix (reports (snd (checkNode' options node name2 w))).
Proof.
  rewrite !checkNode_inspect. cbv zeta.
  destruct (truthy_string name1), (truthy_string name2);
    apply inspect_withoutFix; reflexivity.
Qed.

(** Each option gates its kinds: with [checkAttributes] falsy (false or
    undefined) a call of [checkNode] adds no [i18nAttrib], with
    [checkText] falsy no [i18nText], with [checkId] falsy neither [i18nId]
    nor [i18nIdOnAttrib]. *)
Theorem falsy_option_silences_its_kinds
        (options : Options) (node : Node.t) (name : option string)
        (w : World) :
  let w' := snd (checkNode' options node name w) in
  (truthy_bool (checkAttributes options) = false ->
   countId i18nAttrib (reports w') = countId i18nAttrib (reports w))
  /\ (truthy_bool (checkText options) = false ->
      countId i18nText (reports w') = countId i18nText (reports w))
  /\ (truthy_bool (checkId options) = false ->
      countId i18nId (reports w') = countId i18nId (reports w)
      /\ countId i18nIdOnAttrib (reports w')
         = countId i18nIdOnAttrib (reports w)).
Proof.
  cbv zeta. split; [|split].
  - intros Hoff. apply checkNode_count.
    + intros loc ins a w0 _ _. apply no_need_no_report. intros _.
      unfold needsI18n. rewrite Hoff. reflexivity.
    + intros loc ins w0. apply checkElement_count_other; discriminate.
  - intros Hoff. apply checkNode_count.
    + intros loc ins a w0 _ _. apply checkAttribute_count_other; discriminate.
    + intros loc ins w0. destruct (Node.i18n node) as [meta|] eqn:Hm.
      * rewrite (checkElement_marked _ _ _ _ _ _ Hm).
        destruct (_ && _); [|reflexivity].
        cbn [snd]. rewrite countId_add_report. simpl. lia.
      * rewrite (checkElement_unmarked _ _ _ _ _ Hm), Hoff. reflexivity.
  - intros Hoff. split.
    + apply checkNode_count.
      * intros loc ins a w0 _ _.
        apply checkAttribute_count_other; discriminate.
      * intros loc ins w0. destruct (Node.i18n node) as [meta|] eqn:Hm.
        -- rewrite (checkElement_marked _ _ _ _ _ _ Hm), Hoff. reflexivity.
        -- rewrite (checkElement_unmarked _ _ _ _ _ Hm).
           destruct (_ && _); [|reflexivity].
           cbn [snd]. rewrite countId_add_report. simpl. lia.
    + apply checkNode_count.
      * intros loc ins a w0 _ _.
        destruct (Attrib.i18n a) as [meta|] eqn:Hm.
        -- rewrite (checkAttribute_marked _ _ _ _ _ _ Hm), Hoff. reflexivity.
        -- rewrite (checkAttribute_unmarked _ _ _ _ _ Hm).
           destruct (needsI18n _ _ _); [|reflexivity].
           cbn [snd]. rewrite countId_add_report. simpl. lia.
      * intros loc ins w0. apply checkElement_count_other; discriminate.
Qed.

(** A node that carries a marker and whose attributes all carry one is
    left without any report as soon as every marker has a custom
    identifier, or [checkId] is falsy: the reports are untouched,
    whatever the other options, the values and the children. *)
Theorem marked_node_is_clean
        (options : Options) (node : Node.t) (name : option string)
        (meta : I18nMeta) (w : World) :
  Node.i18n node = Some meta ->
  (forall a, In a (Node.attributes node) -> Attrib.i18n a <> None) ->
  truthy_bool (checkId options) = false
  \/ (truthy_string (customId meta) = true
      /\ forall a m, In a (Node.attributes node) -> Attrib.i18n a = Some m ->
                     truthy_string (customId m) = true) ->
  checkNode' options node name w
  = (tt, if truthy_string name then w else add_log node w).
Proof.
  intros Hm Hall Hids.
  assert (Hin : forall loc ins w0, inspect options loc ins node w0 = (tt, w0)).
  { intros loc ins w0. unfold inspect, bind.
    rewrite forEach_skip.
    - rewrite (checkElement_marked _ _ _ _ _ _ Hm).
      destruct Hids as [Hoff | [Hid _]]; [rewrite Hoff | rewrite Hid];
        rewrite ?Bool.andb_false_r; reflexivity.
    - intros a w1 Ha.
      destruct (Attrib.i18n a) as [m|] eqn:Hma; [|now apply Hall in Ha].
      rewrite (checkAttribute_marked _ _ _ _ _ _ Hma).
      destruct Hids as [Hoff | [_ Hid]];
        [rewrite Hoff | rewrite (Hid a m Ha Hma)];
        rewrite ?Bool.andb_false_r; reflexivity. }
  rewrite checkNode_inspect. cbv zeta.
  destruct (truthy_string name); apply Hin.
Qed.

End OptionsAndMarkers.

(** ** Sizes and numbers *)

Lemma substring_all (s : string) : substring 0 (String.length s) s = s.
Proof. induction s as [|c s IH]; simpl; [reflexivity | now rewrite IH]. Qed.

Lemma substring_cut (s : string) :
  forall k, (k <= String.length s)%nat ->
            s = substring 0 k s ++ substring k (String.length s - k) s.
Proof.
  induction s as [|c s IH]; intros k Hk.
  - simpl in Hk. assert (k = 0)%nat as -> by lia. reflexivity.
  - destruct k as [|k].
    + cbn [String.length Nat.sub]. simpl. now rewrite substring_all.
    + cbn [String.length] in Hk. simpl.
      rewrite <- (IH k) by lia. reflexivity.
Qed.

(** A string that ends with [px] is what [substr] keeps of it, followed
    by [px]. *)
Lemma endsWith_px_cut (v : string) :
  JsString.endsWith v "px" = true ->
  v = JsString.substr v 0 (JsString.length v - 2) ++ "px".
Proof.
  unfold JsString.endsWith, JsString.substr, JsString.length.
  change (String.length "px") with 2%nat.
  intros H. apply Bool.andb_true_iff in H as [Hlen Hpx].
  apply Nat.leb_le in Hlen. apply String.eqb_eq in Hpx.
  pose proof (substring_cut v (String.length v - 2)) as Hcut.
  replace (String.length v - (String.length v - 2))%nat with 2%nat in Hcut
    by lia.
  rewrite Hpx in Hcut.
  destruct (Z.leb_spec (Z.of_nat (String.length v) - 2) 0) as [Hle | Hgt].
  - assert (String.length v - 2 = 0)%nat as Hz by lia.
    rewrite Hz in Hcut. rewrite (Hcut ltac:(lia)) at 1.
    destruct v; reflexivity.
  - replace (Z.to_nat (Z.of_nat (String.length v) - 2))
      with (String.length v - 2)%nat by lia.
    simpl (Z.to_nat 0). apply Hcut. lia.
Qed.

(** [isSizeOrNumber] accepts exactly the strings that read back from
    their own number, as they stand or once one trailing [px] is taken
    off. *)
Theorem isSizeOrNumber_iff (v : string) :
  isSizeOrNumber v = true
  <-> exists t, (t = v \/ v = t ++ "px")
                /\ JsNumber.ToString (JsNumber.Number t) = t.
Proof.
  split.
  - unfold isSizeOrNumber. intros H.
    destruct (JsString.endsWith v "px") eqn:Hpx.
    + exists (JsString.substr v 0 (JsString.length v - 2)). split.
      * right. now apply endsWith_px_cut.
      * now apply String.eqb_eq.
    + exists v. split; [now left | now apply String.eqb_eq].
  - intros [t [Hvt Hrt]]. exact (isSizeOrNumber_roundtrip v t Hvt Hrt).
Qed.

(** Only one [px] is taken off: putting [px] behind a value that does not
    end with it leaves the verdict as it is, and a value that ends with
    [pxpx] is never accepted. *)
Theorem isSizeOrNumber_one_px (t : string) :
  (JsString.endsWith t "px" = false ->
   isSizeOrNumber (t ++ "px") = isSizeOrNumber t)
  /\ isSizeOrNumber ((t ++ "px") ++ "px") = false.
Proof.
  split.
  - intros Hpx. unfold isSizeOrNumber.
    rewrite JsStringFacts.endsWith_append_px, JsStringFacts.substr_append_px.
    rewrite Hpx. reflexivity.
  - unfold isSizeOrNumber.
    rewrite JsStringFacts.endsWith_append_px, JsStringFacts.substr_append_px.
    destruct (String.eqb _ _) eqn:E; [|reflexivity].
    apply String.eqb_eq in E.
    pose proof (JsNumberFacts.ToString_not_px (JsNumber.Number (t ++ "px"))) as Hno.
    rewrite E, JsStringFacts.endsWith_append_px in Hno. discriminate Hno.
Qed.

Module NumberAlphabet.
Import JsString JsNumber.

Ltac alphabet H :=
  unfold numberCodeUnit in H; cbn [hasCodeUnit] in H;
  repeat match type of H with
         | (_ || _)%bool = false =>
             let H' := fresh "Hc" in
             apply Bool.orb_false_iff in H as [H' H]
         end.

Lemma alphabet_string_of_uint c (u : Decimal.uint) :
  numberCodeUnit c = false ->
  hasCodeUnit c (NilEmpty.string_of_uint u) = false.
Proof.
  intros H. alphabet H.
  induction u; cbn [NilEmpty.string_of_uint hasCodeUnit];
    rewrite ?IHu; try reflexivity;
    match goal with
    | Hd : Ascii.eqb ?d c = false |- (Ascii.eqb ?d c || false)%bool = false =>
        rewrite Hd; reflexivity
    end.
Qed.

Lemma alphabet_digits_of c (z : Z) :
  numberCodeUnit c = false -> hasCodeUnit c (digits_of z) = false.
Proof.
  intros H. unfold digits_of, NilZero.string_of_uint.
  destruct (N.to_uint (Z.to_N z)) eqn:E;
    try (rewrite <- E at 1; fail);
    try (apply alphabet_string_of_uint; exact H).
  alphabet H. cbn [hasCodeUnit]. rewrite Hc. reflexivity.
Qed.

Lemma alphabet_zeros c (n : nat) :
  numberCodeUnit c = false -> hasCodeUnit c (zeros n) = false.
Proof.
  intros H. alphabet H.
  induction n as [|n IH]; cbn [zeros hasCodeUnit]; [reflexivity|].
  rewrite Hc, IH. reflexivity.
Qed.

Lemma alphabet_layout c (s n k : Z) :
  numberCodeUnit c = false -> hasCodeUnit c (layout s n k) = false.
Proof.
  intros H.
  pose proof (alphabet_digits_of c s H) as Hds.
  pose proof (alphabet_digits_of c (Z.abs (n - 1)) H) as Hes.
  pose proof (fun m => alphabet_zeros c m H) as Hz.
  pose proof (fun a b => JsNumberFacts.hasCodeUnit_substring c (digits_of s) a b Hds)
    as Hsub.
  alphabet H.
  unfold layout.
  repeat match goal with
         | |- context [if ?b then _ else _] => destruct b
         end;
    repeat (rewrite JsNumberFacts.hasCodeUnit_append;
            apply Bool.orb_false_iff; split);
    try solve [apply Hds | apply Hes | apply Hz | apply Hsub];
    cbn [hasCodeUnit];
    repeat match goal with
           | Hd : Ascii.eqb ?d c = false |- context [Ascii.eqb ?d c] =>
               rewrite Hd
           end; reflexivity.
Qed.

(** Every code unit of the string of a number is a digit or one of
    [.e+-NaIfinty]. *)
Lemma alphabet_ToString c (x : number) :
  numberCodeUnit c = false -> hasCodeUnit c (ToString x) = false.
Proof.
  intros H. pose proof (fun s n k => alphabet_layout c s n k H) as Hl.
  alphabet H.
  destruct x as [neg | neg | | neg m e]; unfold ToString.
  - cbn [hasCodeUnit]. now rewrite Hc.
  - destruct neg; cbn [hasCodeUnit];
      repeat match goal with
             | Hd : Ascii.eqb ?d c = false |- context [Ascii.eqb ?d c] =>
                 rewrite Hd
             end; reflexivity.
  - cbn [hasCodeUnit].
    repeat match goal with
           | Hd : Ascii.eqb ?d c = false |- context [Ascii.eqb ?d c] =>
               rewrite Hd
           end; reflexivity.
  - match goal with
    | |- context [shortest ?f ?x ?a ?b ?c0 ?d] =>
        destruct (shortest f x a b c0 d) as [[s n'] k]
    end.
    rewrite JsNumberFacts.hasCodeUnit_append, Hl.
    destruct neg; cbn [hasCodeUnit];
      repeat match goal with
             | Hd : Ascii.eqb ?d c = false |- context [Ascii.eqb ?d c] =>
                 rewrite Hd
             end; reflexivity.
Qed.

Lemma digits_of_length (z : Z) : (0 < String.length (digits_of z))%nat.
Proof.
  unfold digits_of, NilZero.string_of_uint.
  destruct (N.to_uint (Z.to_N z)); simpl; lia.
Qed.

Lemma layout_length (s n k : Z) : (0 < String.length (layout s n k))%nat.
Proof.
  pose proof (digits_of_length s) as Hds.
  unfold layout.
  repeat match goal with
         | |- context [if ?b then _ else _] => destruct b
         end;
    rewrite !JsStringFacts.length_append; cbn [String.length]; lia.
Qed.

(** The string of a number is never empty. *)
Lemma ToString_length (x : number) : (0 < String.length (ToString x))%nat.
Proof.
  destruct x as [neg | neg | | neg m e]; unfold ToString.
  - simpl. lia.
  - destruct neg; simpl; lia.
  - simpl. lia.
  - match goal with
    | |- context [shortest ?f ?x ?a ?b ?c0 ?d] =>
        destruct (shortest f x a b c0 d) as [[s n'] k]
    end.
    rewrite JsStringFacts.length_append.
    pose proof (layout_length s n' k). lia.
Qed.

Lemma white_space_not_numberCodeUnit c :
  isStrWhiteSpaceChar c = true -> numberCodeUnit c = false.
Proof.
  destruct c as [[] [] [] [] [] [] [] []]; intros H;
    solve [discriminate H | reflexivity].
Qed.

Lemma white_space_not_px c :
  isStrWhiteSpaceChar c = true -> hasCodeUnit c "px" = false.
Proof.
  destruct c as [[] [] [] [] [] [] [] []]; intros H;
    solve [discriminate H | reflexivity].
Qed.

End NumberAlphabet.

(** A value that [isSizeOrNumber] accepts is not empty, is not [px]
    alone, and holds no white space: [Number] trims white space, but the
    comparison with the string of the number is exact, so a padded or
    spaced number is not taken for a size or a number. *)
Theorem isSizeOrNumber_exact_spelling (v : string) :
  isSizeOrNumber v = true ->
  v <> "" /\ v <> "px"
  /\ forall c, JsNumber.isStrWhiteSpaceChar c = true ->
               JsString.hasCodeUnit c v = false.
Proof.
  intros H. apply isSizeOrNumber_iff in H as [t [Hvt Hrt]].
  assert (Hlen : (0 < String.length t)%nat).
  { rewrite <- Hrt. apply NumberAlphabet.ToString_length. }
  assert (Hx : JsString.hasCodeUnit "x" t = false).
  { rewrite <- Hrt. apply JsNumberFacts.hasCodeUnit_ToString. }
  split; [|split].
  - destruct Hvt as [<- | ->].
    + intros ->. simpl in Hlen. lia.
    + destruct t; [simpl in Hlen; lia | discriminate].
  - destruct Hvt as [<- | ->].
    + intros ->. discriminate Hx.
    + destruct t as [|c0 t]; [simpl in Hlen; lia|].
      intros E. injection E as _ E.
      destruct t; [discriminate E|]. destruct t; discriminate E.
  - intros c Hc.
    assert (Ht : JsString.hasCodeUnit c t = false).
    { rewrite <- Hrt. apply NumberAlphabet.alphabet_ToString.
      now apply NumberAlphabet.white_space_not_numberCodeUnit. }
    destruct Hvt as [<- | ->]; [exact Ht|].
    rewrite JsNumberFacts.hasCodeUnit_append, Ht.
    now apply NumberAlphabet.white_space_not_px.
Qed.

(** ** Reports are made only when called for *)

Lemma add_report_neq (d : ReportDescriptor) (w : World) : add_report d w <> w.
Proof.
  intros E. apply (f_equal (fun w0 => List.length (reports w0))) in E.
  cbn [add_report reports] in E. rewrite length_app in E. simpl in E. lia.
Qed.

Lemma no_report_inv (d : ReportDescriptor) (w : World) :
  (tt, w) = (tt, add_report d w) -> False.
Proof.
  intros E. apply (f_equal snd) in E. cbn [snd] in E. symmetry in E.
  exact (add_report_neq d w E).
Qed.

Lemma one_report_inv (d d' : ReportDescriptor) (w : World) :
  (tt, add_report d' w) = (tt, add_report d w) -> d' = d.
Proof.
  intros E. apply (f_equal (fun p => reports (snd p))) in E.
  cbn [snd add_report reports] in E.
  apply app_inv_head in E. now injection E.
Qed.

Lemma truthy_bool_true (b : option bool) : truthy_bool b = true -> b = Some true.
Proof. destruct b as [[]|]; simpl; intros H; try discriminate H; reflexivity. Qed.

Lemma truthy_string_false (s : option string) :
  truthy_string s = false -> s = None \/ s = Some "".
Proof.
  destruct s as [s|]; simpl; intros H; [|now left].
  right. apply Bool.negb_false_iff, String.eqb_eq in H. now subst.
Qed.

(** When the callback makes a report for an attribute, the report was
    called for.  It is [i18nIdOnAttrib] only for a marker without custom
    identifier under [checkId]; it is [i18nAttrib] only for an attribute
    without marker under [checkAttributes] whose value is a string, not
    empty, not ["true"] or ["false"], not a size or number, and whose
    name neither starts with [:xml] nor is in the ignore array. *)
Theorem attribute_reported_only_when_needed
        (options : Options) (loc : SourceLocation) (insertIndex : Z)
        (attrib : Attrib.t) (d : ReportDescriptor) (w : World) :
  checkAttribute options loc insertIndex attrib w = (tt, add_report d w) ->
  (messageId d = i18nIdOnAttrib
   /\ checkId options = Some true
   /\ exists meta, Attrib.i18n attrib = Some meta
                   /\ (customId meta = None \/ customId meta = Some ""))
  \/ (messageId d = i18nAttrib
      /\ checkAttributes options = Some true
      /\ Attrib.i18n attrib = None
      /\ exists v, Attrib.value attrib = VString v
                   /\ v <> "" /\ v <> "true" /\ v <> "false"
                   /\ isSizeOrNumber v = false
                   /\ JsString.startsWith (Attrib.name attrib) ":xml" = false
                   /\ ~ In (Attrib.name attrib) (DEFAULT_IGNORE_ATTRIBUTES w)).
Proof.
  intros Hrun. destruct (Attrib.i18n attrib) as [meta|] eqn:Hm.
  - rewrite (checkAttribute_marked _ _ _ _ _ _ Hm) in Hrun.
    destruct (truthy_bool (checkId options)) eqn:Hid;
      destruct (truthy_string (customId meta)) eqn:Hcid;
      cbn [andb negb] in Hrun;
      try (exfalso; exact (no_report_inv d w Hrun)).
    left. apply one_report_inv in Hrun. subst d.
    split; [reflexivity | split; [now apply truthy_bool_true|]].
    exists meta. split; [reflexivity | now apply truthy_string_false].
  - rewrite (checkAttribute_unmarked _ _ _ _ _ Hm) in Hrun.
    destruct (needsI18n options (DEFAULT_IGNORE_ATTRIBUTES w) attrib) eqn:Hn;
      [|exfalso; exact (no_report_inv d w Hrun)].
    right. apply one_report_inv in Hrun. subst d.
    split; [reflexivity|].
    destruct (Attrib.value attrib) as [ | | b | x | v | ] eqn:Hv;
      try (rewrite needsI18n_not_string in Hn;
           [discriminate Hn | rewrite Hv; discriminate]).
    rewrite (needsI18n_string _ _ _ _ Hv) in Hn.
    repeat match goal with
           | H : (_ && _)%bool = true |- _ =>
               apply Bool.andb_true_iff in H; destruct H
           | H : negb _ = true |- _ => apply Bool.negb_true_iff in H
           end.
    split; [now apply truthy_bool_true | split; [reflexivity|]].
    exists v. repeat split; try assumption;
      try (now apply String.eqb_neq).
    intros Hin. apply JsStringFacts.includes_In in Hin. congruence.
Qed.

(** When the element inspection makes a report, the report was called
    for.  It is [i18nId] only for a node whose marker has no custom
    identifier, under [checkId]; it is [i18nText] only for a node without
    marker that has a direct child of kind [Text], [BoundText] or [Icu],
    under [checkText]. *)
Theorem element_reported_only_when_needed
        (options : Options) (loc : SourceLocation) (insertIndex : Z)
        (node : Node.t) (d : ReportDescriptor) (w : World) :
  checkElement options loc insertIndex node w = (tt, add_report d w) ->
  (messageId d = i18nId
   /\ checkId options = Some true
   /\ exists meta, Node.i18n node = Some meta
                   /\ (customId meta = None \/ customId meta = Some ""))
  \/ (messageId d = i18nText
      /\ checkText options = Some true
      /\ Node.i18n node = None
      /\ exists cs child, Node.children node = Some cs /\ In child cs
                          /\ In (Node.type child) TEXT_TYPE_NAMES).
Proof.
  intros Hrun. destruct (Node.i18n node) as [meta|] eqn:Hm.
  - rewrite (checkElement_marked _ _ _ _ _ _ Hm) in Hrun.
    destruct (truthy_bool (checkId options)) eqn:Hid;
      destruct (truthy_string (customId meta)) eqn:Hcid;
      cbn [andb negb] in Hrun;
      try (exfalso; exact (no_report_inv d w Hrun)).
    left. apply one_report_inv in Hrun. subst d.
    split; [reflexivity | split; [now apply truthy_bool_true|]].
    exists meta. split; [reflexivity | now apply truthy_string_false].
  - rewrite (checkElement_unmarked _ _ _ _ _ Hm) in Hrun.
    destruct (truthy_bool (checkText options)) eqn:Hct;
      destruct (hasTextChild node) eqn:Hch;
      cbn [andb] in Hrun;
      try (exfalso; exact (no_report_inv d w Hrun)).
    right. apply one_report_inv in Hrun. subst d.
    split; [reflexivity | split; [now apply truthy_bool_true|]].
    split; [reflexivity|].
    unfold hasTextChild in Hch.
    destruct (Node.children node) as [cs|]; [|discriminate Hch].
    apply existsb_exists in Hch as [child [Hin Hty]].
    exists cs, child. split; [reflexivity | split; [exact Hin|]].
    now apply JsStringFacts.includes_In.
Qed.

(** ** The further properties at sample inputs *)

Lemma namespaced_or_listed_attribute_never_reported_witness :
  JsString.startsWith ":xml:lang" ":xml" = true
  /\ countId i18nAttrib
             (reports (snd (checkAttribute defaultOptions Sample.loc0 4
                                           (Sample.attr ":xml:lang" "English")
                                           initialWorld)))
     = countId i18nAttrib (reports initialWorld).
Proof.
  split; [reflexivity|].
  apply (namespaced_or_listed_attribute_never_reported
           defaultOptions Sample.loc0 4 (Sample.attr ":xml:lang" "English")
           initialWorld).
  left. reflexivity.
Defined.

Lemma supplied_names_ignored_by_every_rule_witness :
  let options := {| checkId := Some true; checkText := Some true;
                    checkAttributes := Some true;
                    ignoreAttributes := Some ["title"] |} in
  let w := snd (Sample.firstRule options) in
  let rule := fst (Sample.firstRule defaultOptions) in
  countId i18nAttrib (reports (snd (Element rule Sample.div_title w)))
  = countId i18nAttrib (reports w).
Proof.
  intros options w rule.
  destruct (supplied_names_ignored_by_every_rule
              Sample.toLoc Sample.toIndex options defaultOptions
              initialWorld initialWorld w Sample.div_title) as [Helement _].
  - apply reachableFrom_here.
  - intros a [<- | []]. simpl. now left.
  - exact Helement.
Defined.

Lemma falsy_option_silences_its_kinds_witness :
  let options := {| checkId := Some true; checkText := None;
                    checkAttributes := Some false;
                    ignoreAttributes := None |} in
  let w' := snd (checkNode Sample.toLoc Sample.toIndex options
                           Sample.div_title (Some "div") initialWorld) in
  countId i18nAttrib (reports w') = 0%nat
  /\ countId i18nText (reports w') = 0%nat.
Proof.
  intros options w'.
  destruct (falsy_option_silences_its_kinds
              Sample.toLoc Sample.toIndex options Sample.div_title
              (Some "div") initialWorld) as [Hattrib [Htext _]].
  split; [apply Hattrib | apply Htext]; reflexivity.
Defined.

Lemma marked_node_is_clean_witness :
  let greeting := {| customId := Some "greeting" |} in
  let attrib := {| Attrib.name := "title";
                   Attrib.value := VString "Hello";
                   Attrib.i18n := Some {| customId := Some "hello" |} |} in
  let node := Node.Build "Element" (Some "div") None (Sample.span 0 60)
                         [attrib] (Some [Sample.text 52 54]) (Some greeting) in
  checkNode Sample.toLoc Sample.toIndex defaultOptions node (Some "div")
            initialWorld
  = (tt, initialWorld).
Proof.
  intros greeting attrib node.
  apply (marked_node_is_clean Sample.toLoc Sample.toIndex defaultOptions node
           (Some "div") greeting initialWorld).
  - reflexivity.
  - intros a [<- | []]. discriminate.
  - right. split; [reflexivity|].
    intros a m [<- | []] Hm. injection Hm as <-. reflexivity.
Defined.

Lemma isSizeOrNumber_iff_witness :
  isSizeOrNumber "100px" = true.
Proof.
  apply (isSizeOrNumber_iff "100px"). exists "100".
  split; [right; reflexivity | vm_compute; reflexivity].
Defined.

Lemma isSizeOrNumber_one_px_witness :
  JsString.endsWith "100" "px" = false
  /\ isSizeOrNumber "100px" = isSizeOrNumber "100"
  /\ isSizeOrNumber "100pxpx" = false.
Proof.
  destruct (isSizeOrNumber_one_px "100") as [Hone Htwo].
  split; [reflexivity | split; [apply Hone; reflexivity | exact Htwo]].
Defined.

Lemma isSizeOrNumber_exact_spelling_witness :
  isSizeOrNumber "1.5px" = true
  /\ JsString.hasCodeUnit " " "1.5px" = false.
Proof.
  assert (H : isSizeOrNumber "1.5px" = true) by (vm_compute; reflexivity).
  split; [exact H|].
  destruct (isSizeOrNumber_exact_spelling "1.5px" H) as [_ [_ Hspace]].
  apply Hspace. reflexivity.
Defined.

Lemma attribute_reported_only_when_needed_witness :
  let d := {| messageId := i18nAttrib;
              loc := Sample.loc0;
              data := Some [("attribName", "title")];
              fix_ := Some (Edit {| range := (4, 4); text := " i18n-title" |});
              suggest :=
                [ {| suggest_messageId := i18nSuggestIgnore;
                     suggest_data := [("attribName", "title")];
                     suggest_fix := NoEdit |} ] |} in
  checkAttribute defaultOptions Sample.loc0 4 (Sample.attr "title" "Hello")
                 initialWorld
  = (tt, add_report d initialWorld)
  /\ isSizeOrNumber "Hello" = false
  /\ ~ In "title" (DEFAULT_IGNORE_ATTRIBUTES initialWorld).
Proof.
  intros d.
  assert (H : checkAttribute defaultOptions Sample.loc0 4
                             (Sample.attr "title" "Hello") initialWorld
              = (tt, add_report d initialWorld)).
  { vm_compute. reflexivity. }
  split; [exact H|].
  destruct (attribute_reported_only_when_needed
              defaultOptions Sample.loc0 4 (Sample.attr "title" "Hello")
              d initialWorld H)
    as [[Hkind _] | [_ [_ [_ [v [Hv [_ [_ [_ [Hsz [_ Hign]]]]]]]]]]].
  - discriminate Hkind.
  - injection Hv as <-. split; [exact Hsz | exact Hign].
Defined.

Lemma element_reported_only_when_needed_witness :
  let d := {| messageId := i18nText;
              loc := Sample.loc0;
              data := None;
              fix_ := Some (Edit {| range := (4, 4); text := " i18n" |});
              suggest := [] |} in
  checkElement defaultOptions Sample.loc0 4 Sample.div_text initialWorld
  = (tt, add_report d initialWorld)
  /\ Node.i18n Sample.div_text = None.
Proof.
  intros d.
  assert (H : checkElement defaultOptions Sample.loc0 4 Sample.div_text
                           initialWorld
              = (tt, add_report d initialWorld)).
  { reflexivity. }
  split; [exact H|].
  destruct (element_reported_only_when_needed
              defaultOptions Sample.loc0 4 Sample.div_text d initialWorld H)
    as [[Hkind _] | [_ [_ [Hnone _]]]].
  - discriminate Hkind.
  - exact Hnone.
Defined.
